(** * CityGuardian: registration, credential verification and media intake

    A shallow embedding of the request handlers of the CityGuardian
    front-end repository:

    - [models/User.ts]                         (module [UserModel])
    - [app/api/auth/register/route.ts]         (module [Register])
    - [app/api/auth/[...nextauth]/route.ts] and its try/catch variants
                                               (module [Auth])
    - [app/api/upload/route.ts]                (module [Upload])
    - [components/issue-form.tsx]              (module [IssueForm])

    JavaScript strings are modelled as [string]; one [ascii] stands for one
    UTF-16 code unit below 256 (the Latin-1 range).  The user collection is
    the list of its documents in insertion order.  The handlers are pure
    functions from the request, the store and the values the environment
    supplies (clock, fresh object id, bcrypt salts) to a response and the
    new store; the database is taken to be reachable.

    Mongoose enters through what [userSchema] declares: strict mode (a
    property the schema does not declare is not stored), the [required]
    and [enum] validators run by [save], the [lowercase] setter of
    [email] (run on assignment and when a query filter is cast), the
    [select: false] projection of [password], the [pre('save')] hook and
    the unique index on [email]. *)

From Stdlib Require Import Bool Arith NArith ZArith List String Ascii Lia.
From Stdlib Require Import DecimalString DecimalNat DecimalZ.
Import ListNotations.
Open Scope string_scope.
Open Scope nat_scope.
Open Scope list_scope.

(* ================================================================== *)
(** ** JavaScript string primitives used by the handlers               *)
(* ================================================================== *)

Module JS.

(** [!s] is false exactly for the non-empty strings. *)
Definition truthy (s : string) : bool :=
  match s with EmptyString => false | String _ _ => true end.

(** [!x] for a value that may be [undefined]. *)
Definition truthy_opt (o : option string) : bool :=
  match o with None => false | Some s => truthy s end.

(** White space and line terminators ([\s], also what [trim] strips),
    restricted to code units below 256: TAB, LF, VT, FF, CR, SP, NBSP. *)
Definition isWhiteSpace (c : ascii) : bool :=
  let n := nat_of_ascii c in
  ((9 <=? n) && (n <=? 13)) || (n =? 32) || (n =? 160).

(** [String.prototype.toLowerCase] on one code unit: A-Z, and the
    Latin-1 capitals U+00C0..U+00DE except the multiplication sign. *)
Definition toLowerCase_unit (c : ascii) : ascii :=
  let n := nat_of_ascii c in
  if ((65 <=? n) && (n <=? 90))
     || ((192 <=? n) && (n <=? 222) && negb (n =? 215))
  then ascii_of_nat (n + 32) else c.

Fixpoint toLowerCase (s : string) : string :=
  match s with
  | EmptyString => EmptyString
  | String c r => String (toLowerCase_unit c) (toLowerCase r)
  end.

(** Folding of the ASCII letters only: the equivalence "equal up to
    ASCII case" compares the images under this map. *)
Definition ascii_fold_unit (c : ascii) : ascii :=
  let n := nat_of_ascii c in
  if (65 <=? n) && (n <=? 90) then ascii_of_nat (n + 32) else c.

Fixpoint ascii_fold (s : string) : string :=
  match s with
  | EmptyString => EmptyString
  | String c r => String (ascii_fold_unit c) (ascii_fold r)
  end.

Definition eq_ascii_case (a b : string) : Prop := ascii_fold a = ascii_fold b.

Fixpoint trimStart (s : string) : string :=
  match s with
  | EmptyString => EmptyString
  | String c r => if isWhiteSpace c then trimStart r else s
  end.

Fixpoint trimEnd (s : string) : string :=
  match s with
  | EmptyString => EmptyString
  | String c r =>
      match trimEnd r with
      | EmptyString => if isWhiteSpace c then EmptyString else String c EmptyString
      | r' => String c r'
      end
  end.

(** [String.prototype.trim] *)
Definition trim (s : string) : string := trimEnd (trimStart s).

(** [String.prototype.includes] *)
Fixpoint includes (needle s : string) : bool :=
  prefix needle s
  || match s with
     | EmptyString => false
     | String _ r => includes needle r
     end.

(** [Array.prototype.includes] on an array of strings. *)
Definition array_includes (arr : list string) (x : string) : bool :=
  existsb (String.eqb x) arr.

(** Decimal rendering of a number inside a template literal. *)
Definition show_nat (n : nat) : string := NilZero.string_of_uint (Nat.to_uint n).
Definition show_N (n : N) : string := NilZero.string_of_uint (N.to_uint n).

(** *** The e-mail pattern [/^[^\s@]+@[^\s@]+\.[^\s@]+$/] *)

(** The character class [[^\s@]]. *)
Definition cls (c : ascii) : bool := negb (isWhiteSpace c || Ascii.eqb c "@").

Fixpoint all_cls (s : string) : bool :=
  match s with
  | EmptyString => true
  | String c r => cls c && all_cls r
  end.

(** The longest prefix made of class characters, and what follows it. *)
Fixpoint span_cls (s : string) : string * string :=
  match s with
  | EmptyString => (EmptyString, EmptyString)
  | String c r =>
      if cls c then let (a, b) := span_cls r in (String c a, b)
      else (EmptyString, s)
  end.

(** [s] holds a dot that is followed by at least one more character. *)
Fixpoint dot_then_more (s : string) : bool :=
  match s with
  | EmptyString => false
  | String c r => (Ascii.eqb c "." && truthy r) || dot_then_more r
  end.

(** The domain part: class characters only, with a dot that is neither
    its first nor its last character. *)
Definition domain_ok (d : string) : bool :=
  all_cls d && match d with
               | EmptyString => false
               | String _ r => dot_then_more r
               end.

(** [emailRegex.test(s)].  The local part cannot hold [@], so the first
    [+] stops at the first character outside the class, which has to be
    the [@] of the pattern. *)
Definition emailRegex_test (s : string) : bool :=
  let (local, rest) := span_cls s in
  truthy local
  && match rest with
     | String c d => Ascii.eqb c "@" && domain_ok d
     | EmptyString => false
     end.

(** What the pattern means, read off the regular expression. *)
Definition emailRegex_matches (s : string) : Prop :=
  exists a b c : string,
    s = (a ++ "@" ++ b ++ "." ++ c)%string
    /\ a <> "" /\ b <> "" /\ c <> ""
    /\ all_cls a = true /\ all_cls b = true /\ all_cls c = true.

End JS.

(* ================================================================== *)
(** ** JSON values and HTTP responses                                  *)
(* ================================================================== *)

#[warnings="-register-all"] Inductive json : Type :=
| JNull
| JBool (b : bool)
| JNum (z : Z)
| JStr (s : string)
| JArr (items : list json)
| JObj (fields : list (string * json)).

Module Json.

(** Property lookup on a parsed object: [None] is [undefined]. *)
Fixpoint lookup (k : string) (fields : list (string * json)) : option json :=
  match fields with
  | [] => None
  | (k', v) :: rest => if String.eqb k k' then Some v else lookup k rest
  end.

Definition get (k : string) (j : json) : option json :=
  match j with
  | JObj fields => lookup k fields
  | _ => None
  end.

(** An object literal whose [undefined] properties are dropped, as
    [JSON.stringify] does. *)
Fixpoint obj_opt (fields : list (string * option json)) : list (string * json) :=
  match fields with
  | [] => []
  | (k, Some v) :: rest => (k, v) :: obj_opt rest
  | (_, None) :: rest => obj_opt rest
  end.

Definition keys (fields : list (string * json)) : list string := map fst fields.

(** Does a property named [k] occur anywhere inside the value? *)
Fixpoint mentions (k : string) (j : json) : bool :=
  match j with
  | JArr items => existsb (mentions k) items
  | JObj fields =>
      existsb (fun kv => match kv with (k', v) => String.eqb k k' || mentions k v end) fields
  | _ => false
  end.

End Json.

(** [NextResponse.json(body, { status })]; the status defaults to 200. *)
Record response : Type := mkResponse { status : nat; body : json }.

Definition json_error (msg : string) (st : nat) : response :=
  mkResponse st (JObj [("error", JStr msg)]).

(** The result of a computation that may throw [new Error(message)]. *)
Inductive outcome (A : Type) : Type :=
| Return (a : A)
| Throw (message : string).
Arguments Return {A} a.
Arguments Throw {A} message.


(* ================================================================== *)
(** ** bcryptjs, as an ideal salted hash                               *)
(* ================================================================== *)

Module Bcrypt.

(** A string handed to bcrypt is a literal typed by somebody or the output
    of an earlier call.  A digest is kept symbolic: it records the cost,
    the salt and what was hashed. *)
Inductive secret : Type :=
| Plain (s : string)
| Hashed (rounds : nat) (salt : N) (input : secret).

(** The UTF-8 bytes of one code unit below 256: the unit itself below
    128, otherwise the two bytes [110000xx 10xxxxxx]. *)
Definition utf8_unit (c : ascii) : list ascii :=
  match c with
  | Ascii b0 b1 b2 b3 b4 b5 b6 false => [c]
  | Ascii b0 b1 b2 b3 b4 b5 b6 true =>
      [ Ascii b6 true false false false false true true;
        Ascii b0 b1 b2 b3 b4 b5 false true ]
  end.

(** [stringToBytes(s)] *)
Fixpoint stringToBytes (s : string) : list ascii :=
  match s with
  | EmptyString => []
  | String c r => utf8_unit c ++ stringToBytes r
  end.

(** The key bcrypt derives from a password: the bytes of the password and
    a closing NUL, read cyclically, of which the 18 words of the key
    schedule take the first 72.  Bytes of the password past the 72nd
    never enter the digest. *)
Definition key (s : string) : list ascii :=
  firstn 72 (List.concat (repeat (stringToBytes s ++ [zero]) 72)).

Fixpoint bytes_eqb (a b : list ascii) : bool :=
  match a, b with
  | [], [] => true
  | x :: a', y :: b' => Ascii.eqb x y && bytes_eqb a' b'
  | _, _ => false
  end.

(** Do two inputs give bcrypt the same key?  Two literals do when their
    72 key bytes agree.  Two digests (60 characters) do when they are
    the same digest: the same cost and salt over the same key.  A literal
    and a digest never do. *)
Fixpoint same_key (a b : secret) : bool :=
  match a, b with
  | Plain s, Plain t => bytes_eqb (key s) (key t)
  | Hashed r s i, Hashed r' s' i' => Nat.eqb r r' && N.eqb s s' && same_key i i'
  | _, _ => false
  end.

(** [bcrypt.hash(data, rounds)] and [bcrypt.hash(data, await genSalt(rounds))];
    [salt] is the random salt drawn by that call. *)
Definition hash (data : secret) (rounds : nat) (salt : N) : secret :=
  Hashed rounds salt data.

(** [bcrypt.compare(candidate, stored)]: re-hash the candidate with the cost
    and salt read from [stored] and compare the digests; a [stored] that
    is no digest compares false.  The hash is ideal: the digests agree
    when the keys do, and digests of different keys are taken to differ. *)
Definition compare (candidate : secret) (stored : secret) : bool :=
  match stored with
  | Hashed _ _ input => same_key candidate input
  | Plain _ => false
  end.

End Bcrypt.

(* ================================================================== *)
(** ** models/User.ts                                                  *)
(* ================================================================== *)

Module UserModel.

Import Bcrypt.

Record Avatar : Type := { url : string; publicId : string }.

(** The object literal handed to [new User(...)].  [phone], [address],
    [city], [isActive] and [joinedAt] are properties the register route
    passes; [userSchema] declares none of them. *)
Record UserInit : Type := {
  init_name : option string;
  init_email : option string;
  init_password : option secret;
  init_mobile : option string;
  init_role : option string;
  init_phone : option string;
  init_address : option string;
  init_city : option string;
  init_isActive : option bool;
  init_joinedAt : option N
}.

(** A document built by [new User(...)], before validation. *)
Record NewUser : Type := {
  new_id : nat;
  new_name : option string;
  new_email : option string;
  new_password : option secret;
  new_mobile : option string;
  new_role : string;
  new_createdAt : N
}.

(** A stored document ([IUser]).  [password] is [None] on a document read
    without [.select('+password')], since the path has [select: false]. *)
Record UserDoc : Type := {
  _id : nat;
  name : string;
  email : string;
  password : option secret;
  mobile : string;
  role : string;
  avatar : option Avatar;
  complaints : list nat;
  createdAt : N
}.

(** The [users] collection. *)
Definition DB : Type := list UserDoc.

(** The setter of [email: { lowercase: true }]; Mongoose runs it when the
    path is set on a document and when a query filter on it is cast. *)
Definition cast_email (e : string) : string := JS.toLowerCase e.

Definition role_enum : list string := ["citizen"; "employee"; "admin"].

(** [new User(init)]: only the paths of [userSchema] are taken over (strict
    mode), [email] goes through its setter, [role] and [createdAt] get
    their defaults, [complaints] starts empty and [avatar] unset. *)
Definition new_User (fresh_id : nat) (now : N) (init : UserInit) : NewUser :=
  {| new_id := fresh_id;
     new_name := init_name init;
     new_email := option_map cast_email (init_email init);
     new_password := init_password init;
     new_mobile := init_mobile init;
     new_role := match init_role init with Some r => r | None => "citizen" end;
     new_createdAt := now |}.

(** [required: true] on a String path rejects [undefined] and [""]. *)
Definition required_message (path : string) : string :=
  (path ++ ": Path `" ++ path ++ "` is required.")%string.

Definition check_required (path : string) (present : bool) : list string :=
  if present then [] else [required_message path].

Definition secret_present (p : option secret) : bool :=
  match p with
  | None => false
  | Some (Plain s) => JS.truthy s
  | Some (Hashed _ _ _) => true
  end.

Definition check_enum (r : string) : list string :=
  if JS.array_includes role_enum r then []
  else [("role: `" ++ r ++ "` is not a valid enum value for path `role`.")%string].

(** The validators of [userSchema], in path order; the result lists the
    messages of the failing paths. *)
Definition validation_errors (u : NewUser) : list string :=
  check_required "name" (JS.truthy_opt (new_name u))
  ++ check_required "email" (JS.truthy_opt (new_email u))
  ++ check_required "password" (secret_present (new_password u))
  ++ check_required "mobile" (JS.truthy_opt (new_mobile u))
  ++ check_enum (new_role u).

Definition validation_message (errs : list string) : string :=
  ("User validation failed: " ++ String.concat ", " errs)%string.

(** The unique index on [email]. *)
Definition email_is (e : string) (d : UserDoc) : bool := String.eqb (email d) e.

Definition duplicate_key_message (e : string) : string :=
  ("E11000 duplicate key error collection: users index: email_1 dup key: { email: "
   ++ e ++ " }")%string.

(** [userSchema.pre('save', ...)]: on a new document the password counts
    as modified, so the hook replaces it by [bcrypt.hash] of it with a salt
    from [genSalt(10)]. *)
Definition pre_save (hook_salt : N) (p : secret) : secret := hash p 10 hook_salt.

(** [user.save()] on a new document: validation, then the [pre('save')]
    hook, then the insert, which the unique index on [email] can refuse.
    The result is the saved document and the collection with it appended,
    or the error thrown. *)
Definition save (db : DB) (hook_salt : N) (u : NewUser) : outcome (UserDoc * DB) :=
  match validation_errors u with
  | (_ :: _) as errs => Throw (validation_message errs)
  | [] =>
      match new_name u, new_email u, new_password u, new_mobile u with
      | Some n, Some e, Some p, Some m =>
          let doc := {| _id := new_id u; name := n; email := e;
                        password := Some (pre_save hook_salt p);
                        mobile := m; role := new_role u;
                        avatar := None; complaints := [];
                        createdAt := new_createdAt u |} in
          if existsb (email_is e) db then Throw (duplicate_key_message e)
          else Return (doc, db ++ [doc])
      | _, _, _, _ =>
          (* not reached: the validators found the four paths present *)
          Throw (validation_message [])
      end
  end.

(** [User.create(init)] is [new User(init).save()]. *)
Definition create (db : DB) (fresh_id : nat) (now : N) (hook_salt : N)
    (init : UserInit) : outcome (UserDoc * DB) :=
  save db hook_salt (new_User fresh_id now init).

(** The default projection drops [password]. *)
Definition project (d : UserDoc) : UserDoc :=
  {| _id := _id d; name := name d; email := email d; password := None;
     mobile := mobile d; role := role d; avatar := avatar d;
     complaints := complaints d; createdAt := createdAt d |}.

(** [User.findOne({ email }).select('+password')]: the first document whose
    [email] equals the filter value after casting. *)
Definition findOne_select_password (db : DB) (email_filter : string) : option UserDoc :=
  find (email_is (cast_email email_filter)) db.

(** [User.findOne({ email })] *)
Definition findOne (db : DB) (email_filter : string) : option UserDoc :=
  option_map project (findOne_select_password db email_filter).

(** [userSchema.methods.comparePassword]; bcrypt throws when the stored
    hash is missing. *)
Definition comparePassword (d : UserDoc) (candidatePassword : string) : outcome bool :=
  match password d with
  | Some h => Return (compare (Plain candidatePassword) h)
  | None => Throw "Illegal arguments: string, undefined"
  end.

(** What the schema guarantees of a document written through it: the
    required strings are non-empty, the e-mail is in lower case, the
    password is a digest, the role is one of the three. *)
Definition has_digest (d : UserDoc) : Prop :=
  exists r s i, password d = Some (Hashed r s i).

Definition stored_ok (d : UserDoc) : Prop :=
  name d <> "" /\ email d <> "" /\ cast_email (email d) = email d
  /\ has_digest d /\ mobile d <> "" /\ In (role d) role_enum.

(** A well-formed collection: such documents, with pairwise different
    e-mails (the unique index). *)
Definition wf_db (db : DB) : Prop :=
  Forall stored_ok db /\ NoDup (map email db).

End UserModel.

(* ================================================================== *)
(** ** app/api/auth/register/route.ts                                  *)
(* ================================================================== *)

Module Register.

Import UserModel.

(** The parsed request body.  A property is absent ([None]) or a string;
    bodies with properties of other JSON types are outside the contract
    [register(name, email, password, mobile, address, city, role?)]. *)
Record RegisterBody : Type := {
  name : option string;
  email : option string;
  password : option string;
  phone : option string;
  address : option string;
  city : option string;
  role : option string
}.

(** What the environment supplies to one request: the fresh [ObjectId],
    the clock, and the salts drawn by the two bcrypt calls. *)
Record Env : Type := {
  fresh_id : nat;
  now : N;
  route_salt : N;
  hook_salt : N
}.

Definition validRoles : list string := ["citizen"; "employee"; "admin"].
Definition saltRounds : nat := 12.

(** [role || 'citizen'] *)
Definition role_or_default (r : option string) : string :=
  match r with
  | Some s => if JS.truthy s then s else "citizen"
  | None => "citizen"
  end.

(** [role && !validRoles.includes(role)] *)
Definition role_rejected (r : option string) : bool :=
  match r with
  | Some s => JS.truthy s && negb (JS.array_includes validRoles s)
  | None => false
  end.

(** The four validation steps of the handler, in order; [None] when the
    request passes all of them. *)
Definition validate (req : RegisterBody) : option response :=
  if negb (JS.truthy_opt (name req)) || negb (JS.truthy_opt (email req))
     || negb (JS.truthy_opt (password req)) || negb (JS.truthy_opt (phone req))
     || negb (JS.truthy_opt (address req)) || negb (JS.truthy_opt (city req))
  then Some (json_error "All fields are required" 400)
  else if negb (JS.emailRegex_test (match email req with Some e => e | None => "" end))
  then Some (json_error "Invalid email format" 400)
  else if String.length (match password req with Some p => p | None => "" end) <? 6
  then Some (json_error "Password must be at least 6 characters long" 400)
  else if role_rejected (role req)
  then Some (json_error "Invalid role specified" 400)
  else None.

(** The argument of [new User({...})]. *)
Definition user_init (env : Env) (req : RegisterBody) : UserInit :=
  {| init_name := option_map JS.trim (name req);
     init_email := option_map (fun e => JS.trim (JS.toLowerCase e)) (email req);
     init_password :=
       option_map (fun p => Bcrypt.hash (Bcrypt.Plain p) saltRounds (route_salt env))
                  (password req);
     init_mobile := None;
     init_role := Some (role_or_default (role req));
     init_phone := option_map JS.trim (phone req);
     init_address := option_map JS.trim (address req);
     init_city := option_map JS.trim (city req);
     init_isActive := Some true;
     init_joinedAt := Some (now env) |}.

(** The [userResponse] literal.  [user.phone], [user.address], [user.city]
    and [user.joinedAt] are not paths of the schema, so they read
    [undefined] and are left out of the serialised body. *)
Definition userResponse (user : UserDoc) : json :=
  JObj (Json.obj_opt
    [ ("id", Some (JStr (JS.show_nat (_id user))));
      ("name", Some (JStr (UserModel.name user)));
      ("email", Some (JStr (UserModel.email user)));
      ("phone", None);
      ("address", None);
      ("city", None);
      ("role", Some (JStr (UserModel.role user)));
      ("joinedAt", None) ]).

(** The [catch] block. *)
Definition on_error (message : string) : response :=
  if JS.includes "duplicate key" message
  then json_error "User with this email already exists" 409
  else json_error "Internal server error during registration" 500.

(** [POST(request)], with the database reachable: the response and the
    collection afterwards. *)
Definition POST (db : DB) (env : Env) (req : RegisterBody) : response * DB :=
  match validate req with
  | Some rejection => (rejection, db)
  | None =>
      match findOne db (JS.toLowerCase (match email req with Some e => e | None => "" end)) with
      | Some existingUser =>
          (json_error "User with this email already exists" 409, db)
      | None =>
          let user := new_User (fresh_id env) (now env) (user_init env req) in
          match save db (hook_salt env) user with
          | Return (saved, db') =>
              (mkResponse 201
                 (JObj [ ("message", JStr "User registered successfully");
                         ("user", userResponse saved) ]),
               db')
          | Throw message => (on_error message, db)
          end
      end
  end.

End Register.

(* ================================================================== *)
(** ** app/api/auth/[...nextauth]/route.ts and its variants            *)
(* ================================================================== *)

Module Auth.

Import UserModel.

(** The [credentials] argument of [authorize]; [None] is [undefined]. *)
Record Credentials : Type := { email : string; password : string }.

(** The object [authorize] returns.  [image] is [None] when the property is
    not set, [Some None] when it is [null]. *)
Record AuthUser : Type := {
  id : string;
  user_email : string;
  user_name : string;
  user_role : string;
  image : option (option string)
}.

(** [!credentials?.email || !credentials?.password] *)
Definition missing (credentials : option Credentials) : bool :=
  match credentials with
  | None => true
  | Some c => negb (JS.truthy (email c)) || negb (JS.truthy (password c))
  end.

(** The body shared by the three versions, up to the object returned. *)
Definition verify (db : DB) (credentials : option Credentials)
    (result : UserDoc -> AuthUser) : outcome AuthUser :=
  match credentials with
  | None => Throw "Invalid credentials"
  | Some c =>
      if missing credentials then Throw "Invalid credentials"
      else
        match findOne_select_password db (email c) with
        | None => Throw "No user found"
        | Some user =>
            match comparePassword user (password c) with
            | Throw message => Throw message
            | Return isValid =>
                if isValid then Return (result user)
                else Throw "Invalid password"
            end
        end
  end.

(** [authorize] of [app/api/auth/[...nextauth]/route.ts]: errors propagate
    to NextAuth, which reports the message to the caller. *)
Definition authorize (db : DB) (credentials : option Credentials) : outcome AuthUser :=
  verify db credentials
    (fun user => {| id := JS.show_nat (_id user);
                    user_email := UserModel.email user;
                    user_name := name user;
                    user_role := role user;
                    image := None |}).

(** [authorize] of the two other versions of the options file: the same
    steps inside [try], with [image: user.avatar?.url || null] added to the
    result; [catch] logs the error and returns [null].  The result is what
    the caller gets ([None] is [null]) and what went to [console.error]. *)
Definition avatar_url (user : UserDoc) : option string :=
  match avatar user with
  | Some a => if JS.truthy (url a) then Some (url a) else None
  | None => None
  end.

Definition authorize_caught (db : DB) (credentials : option Credentials)
    : option AuthUser * list string :=
  match verify db credentials
          (fun user => {| id := JS.show_nat (_id user);
                          user_email := UserModel.email user;
                          user_name := name user;
                          user_role := role user;
                          image := Some (avatar_url user) |}) with
  | Return user => (Some user, [])
  | Throw message => (None, [message])
  end.

End Auth.

(* ================================================================== *)
(** ** The session of next-auth                                        *)
(* ================================================================== *)

(** [session.user] with its [id], [role], [email] and [name]; a handler
    gets [None] from [getServerSession] when the request carries no valid
    token. *)
Record Session : Type := {
  userId : string;
  sessionRole : string;
  sessionEmail : string;
  sessionName : string
}.

(* ================================================================== *)
(** ** app/api/upload/route.ts                                         *)
(* ================================================================== *)

Module Upload.

(** One entry of [formData.getAll('files')]. *)
Record File : Type := {
  name : string;
  type : string;
  size : N
}.

(** What Cloudinary answers for one stream: the callback's [result]. *)
Record UploadResult : Type := {
  secure_url : string;
  public_id : string;
  width : Z;
  height : Z;
  format : string;
  bytes : Z
}.

Definition allowedTypes : list string :=
  ["image/jpeg"; "image/jpg"; "image/png"; "image/webp"].

(** [10 * 1024 * 1024] *)
Definition maxSize : N := 10 * 1024 * 1024.

(** The validation loop: the response of the first failing check, file by
    file, the type before the size; [None] when every file passes. *)
Fixpoint validate (files : list File) : option response :=
  match files with
  | [] => None
  | file :: rest =>
      if negb (JS.array_includes allowedTypes (type file))
      then Some (json_error
                   ("Invalid file type: " ++ type file
                    ++ ". Only JPEG, PNG, and WebP are allowed.")%string 400)
      else if (maxSize <? size file)%N
      then Some (json_error
                   ("File too large: " ++ name file ++ ". Maximum size is 10MB.")%string 400)
      else validate rest
  end.

(** The object an upload promise resolves to. *)
Definition handle_of_result (r : UploadResult) : json :=
  JObj [ ("url", JStr (secure_url r));
         ("publicId", JStr (public_id r));
         ("width", JNum (width r));
         ("height", JNum (height r));
         ("format", JStr (format r));
         ("bytes", JNum (bytes r)) ].

(** [Promise.all]: every result in order, or a rejection.  The rejection
    reported here is the first in the order of the list; [Promise.all]
    reports the first in time, which only changes the text passed on as
    [details]. *)
Fixpoint all_settled {A : Type} (results : list (outcome A)) : outcome (list A) :=
  match results with
  | [] => Return []
  | Throw message :: _ => Throw message
  | Return a :: rest =>
      match all_settled rest with
      | Return l => Return (a :: l)
      | Throw message => Throw message
      end
  end.

(** [POST(request)].  [cloudinary] is the remote service: for each file,
    the result or the error its callback receives.  The second component
    lists the files streamed to the service. *)
Definition POST (session : option Session) (files : list File)
    (cloudinary : File -> outcome UploadResult) : response * list File :=
  match session with
  | None => (json_error "Unauthorized" 401, [])
  | Some _ =>
      if List.length files =? 0
      then (json_error "No files uploaded" 400, [])
      else
        match validate files with
        | Some rejection => (rejection, [])
        | None =>
            match all_settled (map cloudinary files) with
            | Return uploadResults =>
                (mkResponse 200
                   (JObj [ ("success", JBool true);
                           ("images", JArr (map handle_of_result uploadResults));
                           ("message",
                            JStr (JS.show_nat (List.length uploadResults)
                                  ++ " image(s) uploaded successfully")%string) ]),
                 files)
            | Throw message =>
                (mkResponse 500
                   (JObj [ ("error", JStr "Failed to upload images");
                           ("details", JStr message) ]),
                 files)
            end
        end
  end.

(** The media handles a response carries: the [images] array of a
    success body, nothing otherwise. *)
Definition handles (r : response) : list json :=
  match Json.get "images" (body r) with
  | Some (JArr items) => items
  | _ => []
  end.

(** [base64Image.length]: the length of a string or an array, the
    [length] property of an object, [undefined] on a number or boolean;
    reading it off [null] throws. *)
Definition length_of (v : json) : outcome (option json) :=
  match v with
  | JNull => Throw "Cannot read properties of null (reading 'length')"
  | JStr s => Return (Some (JNum (Z.of_nat (String.length s))))
  | JArr items => Return (Some (JNum (Z.of_nat (List.length items))))
  | JObj fields => Return (Json.lookup "length" fields)
  | JBool _ | JNum _ => Return None
  end.

(** One step of [images.map((base64Image, index) => ({...}))];
    [clock index] is what [Date.now()] returns in that step. *)
Definition processImage (clock : nat -> N) (index : nat) (base64Image : json)
    : outcome json :=
  match length_of base64Image with
  | Throw message => Throw message
  | Return len =>
      Return (JObj (Json.obj_opt
        [ ("url", Some base64Image);
          ("publicId",
           Some (JStr ("complaint_" ++ JS.show_N (clock index) ++ "_"
                       ++ JS.show_nat index)%string));
          ("width", Some JNull);
          ("height", Some JNull);
          ("format", Some (JStr "base64"));
          ("bytes", len) ]))
  end.

Fixpoint processImages (clock : nat -> N) (index : nat) (images : list json)
    : outcome (list json) :=
  match images with
  | [] => Return []
  | base64Image :: rest =>
      match processImage clock index base64Image with
      | Throw message => Throw message
      | Return h =>
          match processImages clock (S index) rest with
          | Throw message => Throw message
          | Return hs => Return (h :: hs)
          end
      end
  end.

(** [PUT(request)]; [requestBody] is the parsed JSON body. *)
Definition PUT (session : option Session) (requestBody : json) (clock : nat -> N)
    : response :=
  match session with
  | None => json_error "Unauthorized" 401
  | Some _ =>
      match requestBody with
      | JNull =>
          mkResponse 500
            (JObj [ ("error", JStr "Failed to process images");
                    ("details", JStr "Cannot destructure property 'images' of '(intermediate value)' as it is null.") ])
      | _ =>
          match Json.get "images" requestBody with
          | Some (JArr images) =>
              match processImages clock 0 images with
              | Return processedImages =>
                  mkResponse 200
                    (JObj [ ("success", JBool true);
                            ("images", JArr processedImages);
                            ("message",
                             JStr (JS.show_nat (List.length processedImages)
                                   ++ " image(s) processed successfully")%string) ])
              | Throw message =>
                  mkResponse 500
                    (JObj [ ("error", JStr "Failed to process images");
                            ("details", JStr message) ])
              end
          | _ => json_error "Invalid images data" 400
          end
      end
  end.

End Upload.

(* ================================================================== *)
(** ** components/issue-form.tsx                                       *)
(* ================================================================== *)

Module IssueForm.

(** The [formData] state of the form. *)
Record FormData : Type := {
  title : string;
  type : string;
  description : string;
  address : string;
  coordinates : Z * Z;
  priority : string;
  mobile : string;
  email : string
}.

(** What [handleSubmit] does: an error toast and no request, or the
    [fetch] of the complaints endpoint with a JSON body. *)
Inductive action : Type :=
| ToastError (message : string)
| Fetch (endpoint : string) (method : string) (payload : json).

(** [JSON.stringify({ ...formData, images: uploadedImages })] *)
Definition payload_of (formData : FormData) (uploadedImages : list json) : json :=
  JObj [ ("title", JStr (title formData));
         ("type", JStr (type formData));
         ("description", JStr (description formData));
         ("location",
          JObj [ ("address", JStr (address formData));
                 ("coordinates",
                  JArr [JNum (fst (coordinates formData));
                        JNum (snd (coordinates formData))]) ]);
         ("priority", JStr (priority formData));
         ("contact",
          JObj [ ("mobile", JStr (mobile formData));
                 ("email", JStr (email formData)) ]);
         ("images", JArr uploadedImages) ].

Definition handleSubmit (session : option Session) (formData : FormData)
    (uploadedImages : list json) : action :=
  match session with
  | None => ToastError "Please login to submit a complaint"
  | Some _ =>
      if negb (JS.truthy (type formData)) || negb (JS.truthy (title formData))
         || negb (JS.truthy (description formData))
         || negb (JS.truthy (address formData))
         || negb (JS.truthy (mobile formData))
      then ToastError "Please fill in all required fields"
      else Fetch "/api/complaints" "POST" (payload_of formData uploadedImages)
  end.

End IssueForm.

(* ================================================================== *)
(** ** The complaint workflow behind [POST /api/complaints]            *)
(* ================================================================== *)

Module Complaints.

(** Modelled from the spec: the Complaint model ([models/Complaint]) is not
    among the sources; status and priority are the enumerations of the
    data model. *)
Inductive Status : Type := pending | in_progress | resolved.

(** Modelled from the spec: the priorities of the data model (the form
    offers the same four values). *)
Inductive Priority : Type := low | medium | high | critical.

(** Modelled from the spec: the [complaintDraft] argument of [submit], whose
    handler is not among the sources.  Besides the fields of the form it
    may carry an [author] and a [status] of the client's choosing. *)
Record Draft : Type := {
  title : string;
  category : string;
  description : string;
  address : string;
  coordinates : Z * Z;
  priority : option Priority;
  mobile : string;
  email : string;
  images : list json;
  draft_author : option string;
  draft_status : option Status
}.

(** Modelled from the spec: the persisted Complaint of the data model (the
    model file is not among the sources). *)
Record Complaint : Type := {
  id : nat;
  complaint_title : string;
  complaint_category : string;
  complaint_description : string;
  complaint_address : string;
  complaint_coordinates : Z * Z;
  complaint_priority : Priority;
  complaint_mobile : string;
  complaint_email : string;
  complaint_images : list json;
  status : Status;
  author : string;
  createdAt : N
}.

(** Modelled from the spec: the failures of [submit]. *)
Inductive SubmitError : Type := Unauthenticated | ValidationError.

(** Modelled from the spec: the handler's check of the required fields is
    not among the sources; [submit] requires non-empty title, category,
    description, address and contact mobile. *)
Definition required_present (d : Draft) : bool :=
  JS.truthy (title d) && JS.truthy (category d) && JS.truthy (description d)
  && JS.truthy (address d) && JS.truthy (mobile d).

(** Modelled from the spec: the route handler of [POST /api/complaints]
    and the Complaint model are not among the sources; only the form that
    calls the endpoint and scripts that write complaints directly are.
    [submit(sessionOrNull, complaintDraft)] requires an active session and
    non-empty title, category, description, address and contact mobile,
    and persists the complaint with [author = session.userId], status
    [pending], and priority [medium] unless the draft overrides it.  The
    result comes with the complaint store afterwards. *)
Definition submit (store : list Complaint) (fresh_id : nat) (now : N)
    (sessionOrNull : option Session) (complaintDraft : Draft)
    : (Complaint + SubmitError) * list Complaint :=
  match sessionOrNull with
  | None => (inr Unauthenticated, store)
  | Some session =>
      if required_present complaintDraft then
        let c := {| id := fresh_id;
                    complaint_title := title complaintDraft;
                    complaint_category := category complaintDraft;
                    complaint_description := description complaintDraft;
                    complaint_address := address complaintDraft;
                    complaint_coordinates := coordinates complaintDraft;
                    complaint_priority :=
                      match priority complaintDraft with
                      | Some p => p
                      | None => medium
                      end;
                    complaint_mobile := mobile complaintDraft;
                    complaint_email := email complaintDraft;
                    complaint_images := images complaintDraft;
                    status := pending;
                    author := userId session;
                    createdAt := now |} in
        (inl c, store ++ [c])
      else (inr ValidationError, store)
  end.

End Complaints.

(* ================================================================== *)
(** ** Vocabulary of the statements, and sample data                   *)
(* ================================================================== *)

(** A registration request whose fields other than [role] are valid: the
    six required fields are non-empty, the e-mail has the shape the route
    asks for, the password has six characters or more. *)
Definition other_fields_valid (req : Register.RegisterBody) : bool :=
  JS.truthy_opt (Register.name req) && JS.truthy_opt (Register.email req)
  && JS.truthy_opt (Register.password req) && JS.truthy_opt (Register.phone req)
  && JS.truthy_opt (Register.address req) && JS.truthy_opt (Register.city req)
  && JS.emailRegex_test (match Register.email req with Some e => e | None => "" end)
  && (6 <=? String.length (match Register.password req with Some p => p | None => "" end)).

(** The handle [PUT /api/upload] builds for a string element, and the
    handles of a list of strings processed from position [index] on. *)
Definition string_handle (clock : nat -> N) (index : nat) (s : string) : json :=
  JObj [ ("url", JStr s);
         ("publicId",
          JStr ("complaint_" ++ JS.show_N (clock index) ++ "_" ++ JS.show_nat index)%string);
         ("width", JNull);
         ("height", JNull);
         ("format", JStr "base64");
         ("bytes", JNum (Z.of_nat (String.length s))) ].

Fixpoint string_handles (clock : nat -> N) (index : nat) (images : list string)
    : list json :=
  match images with
  | [] => []
  | s :: rest => string_handle clock index s :: string_handles clock (S index) rest
  end.

(** The document [d] with another stored password. *)
Definition with_password (h : option Bcrypt.secret) (d : UserModel.UserDoc)
    : UserModel.UserDoc :=
  {| UserModel._id := UserModel._id d; UserModel.name := UserModel.name d;
     UserModel.email := UserModel.email d; UserModel.password := h;
     UserModel.mobile := UserModel.mobile d; UserModel.role := UserModel.role d;
     UserModel.avatar := UserModel.avatar d;
     UserModel.complaints := UserModel.complaints d;
     UserModel.createdAt := UserModel.createdAt d |}.

(** The object literal [init] with [mobile] set: what the register route
    would hand to [new User] if it named the phone as the schema does. *)
Definition with_mobile (m : string) (init : UserModel.UserInit) : UserModel.UserInit :=
  {| UserModel.init_name := UserModel.init_name init;
     UserModel.init_email := UserModel.init_email init;
     UserModel.init_password := UserModel.init_password init;
     UserModel.init_mobile := Some m;
     UserModel.init_role := UserModel.init_role init;
     UserModel.init_phone := UserModel.init_phone init;
     UserModel.init_address := UserModel.init_address init;
     UserModel.init_city := UserModel.init_city init;
     UserModel.init_isActive := UserModel.init_isActive init;
     UserModel.init_joinedAt := UserModel.init_joinedAt init |}.

Module Sample.

Definition env : Register.Env :=
  {| Register.fresh_id := 1; Register.now := 1700000000000%N;
     Register.route_salt := 7%N; Register.hook_salt := 9%N |}.

(** The registration of the scenario in the specification, with the
    e-mail in mixed case and some [role]. *)
Definition alice (role : option string) : Register.RegisterBody :=
  {| Register.name := Some "Alice";
     Register.email := Some "Alice@X.com";
     Register.password := Some "secret1";
     Register.phone := Some "555-1000";
     Register.address := Some "1 Main St";
     Register.city := Some "Springfield";
     Register.role := role |}.

(** The same request with a password of five characters. *)
Definition alice_short : Register.RegisterBody :=
  {| Register.name := Some "Alice";
     Register.email := Some "Alice@X.com";
     Register.password := Some "secre";
     Register.phone := Some "555-1000";
     Register.address := Some "1 Main St";
     Register.city := Some "Springfield";
     Register.role := None |}.

(** A document as [User.create] stores it for
    [{ name, email: 'alice@x.com', password: 'secret1', mobile, role }]. *)
Definition stored_alice : UserModel.UserDoc :=
  {| UserModel._id := 1; UserModel.name := "Alice";
     UserModel.email := "alice@x.com";
     UserModel.password := Some (Bcrypt.Hashed 10 9 (Bcrypt.Plain "secret1"));
     UserModel.mobile := "555-1000"; UserModel.role := "citizen";
     UserModel.avatar := None; UserModel.complaints := [];
     UserModel.createdAt := 1700000000000%N |}.

Definition session : Session :=
  {| userId := "1"; sessionRole := "citizen";
     sessionEmail := "alice@x.com"; sessionName := "Alice" |}.

Definition small_jpeg : Upload.File :=
  {| Upload.name := "small.jpg"; Upload.type := "image/jpeg"; Upload.size := 2048%N |}.

(** A file of 12 MB. *)
Definition big_png : Upload.File :=
  {| Upload.name := "big.png"; Upload.type := "image/png";
     Upload.size := (12 * 1024 * 1024)%N |}.

Definition cloudinary (f : Upload.File) : outcome Upload.UploadResult :=
  Return {| Upload.secure_url := ("https://res.cloudinary.com/" ++ Upload.name f)%string;
            Upload.public_id := Upload.name f;
            Upload.width := 1200%Z; Upload.height := 800%Z;
            Upload.format := "jpg"; Upload.bytes := 1024%Z |}.

Definition clock (index : nat) : N := 1700000000000%N.

(** A draft whose sender claims another author and a final status. *)
Definition forged_draft : Complaints.Draft :=
  {| Complaints.title := "Pothole on Main Street";
     Complaints.category := "pothole";
     Complaints.description := "Large pothole near the signal";
     Complaints.address := "Main Street";
     Complaints.coordinates := (77%Z, 28%Z);
     Complaints.priority := None;
     Complaints.mobile := "555-1000";
     Complaints.email := "alice@x.com";
     Complaints.images := [];
     Complaints.draft_author := Some "2";
     Complaints.draft_status := Some Complaints.resolved |}.

End Sample.

(* ================================================================== *)
(** ** The [jwt] and [session] callbacks of the three option files     *)
(* ================================================================== *)

Module Callbacks.

(** The claims of the token the callbacks read and write; [None] is
    [undefined]. *)
Record JWT : Type := {
  token_id : option string;
  token_role : option string;
  token_email : option string;
  token_name : option string
}.

(** [session.user] *)
Record SessionUser : Type := {
  su_id : option string;
  su_role : option string;
  su_email : option string;
  su_name : option string;
  su_image : option string
}.

(** The session object handed to the [session] callback. *)
Record SessionObject : Type := {
  user : option SessionUser;
  expires : string
}.

(** [jwt({ token, user })] of [app/api/auth/[...nextauth]/route.ts] and of
    the second try/catch version: [user] is set on sign-in only. *)
Definition jwt (token : JWT) (user : option Auth.AuthUser) : JWT :=
  match user with
  | Some u =>
      {| token_id := Some (Auth.id u);
         token_role := Some (Auth.user_role u);
         token_email := token_email token;
         token_name := token_name token |}
  | None => token
  end.

(** [jwt] of the first try/catch version, which also copies [email] and
    [name]. *)
Definition jwt_full (token : JWT) (user : option Auth.AuthUser) : JWT :=
  match user with
  | Some u =>
      {| token_id := Some (Auth.id u);
         token_role := Some (Auth.user_role u);
         token_email := Some (Auth.user_email u);
         token_name := Some (Auth.user_name u) |}
  | None => token
  end.

Definition set_id_role (su : SessionUser) (token : JWT) : SessionUser :=
  {| su_id := token_id token;
     su_role := token_role token;
     su_email := su_email su;
     su_name := su_name su;
     su_image := su_image su |}.

(** [session({ session, token })] of the route file: [if (token)] holds for
    every token object; assigning to a missing [session.user] throws. *)
Definition session (s : SessionObject) (token : JWT) : outcome SessionObject :=
  match user s with
  | Some su => Return {| user := Some (set_id_role su token); expires := expires s |}
  | None => Throw "Cannot set properties of undefined (setting 'id')"
  end.

(** [session] of the second try/catch version: [if (session.user)]. *)
Definition session_guarded (s : SessionObject) (token : JWT) : SessionObject :=
  match user s with
  | Some su => {| user := Some (set_id_role su token); expires := expires s |}
  | None => s
  end.

(** [session] of the first try/catch version: a new object with
    [{ ...session.user, id, role, email, name }]. *)
Definition session_spread (s : SessionObject) (token : JWT) : SessionObject :=
  {| user :=
       Some {| su_id := token_id token;
               su_role := token_role token;
               su_email := token_email token;
               su_name := token_name token;
               su_image := match user s with
                           | Some su => su_image su
                           | None => None
                           end |};
     expires := expires s |}.

End Callbacks.

(* ================================================================== *)
(** ** components/image-upload.tsx                                     *)
(* ================================================================== *)

Module ImageUpload.

(** The props of the component the handlers read. *)
Record Props : Type := {
  maxImages : nat;
  maxSizePerImage : N;
  disabled : bool
}.

(** The defaults of the parameter list. *)
Definition defaults : Props :=
  {| maxImages := 5; maxSizePerImage := 10; disabled := false |}.

Inductive toast : Type :=
| ToastError (message : string)
| ToastSuccess (message : option json).

(** The two calls of [fetch('/api/upload', ...)]. *)
Inductive request : Type :=
| PostFiles (files : list Upload.File)
| PutImages (requestBody : json).

(** What one run of [onDrop] leaves: the [images] state, the toast shown,
    the requests sent in order, and whether [onImagesChange] was called
    (with the new [images]). *)
Record Result : Type := {
  images : list json;
  shown : option toast;
  requests : list request;
  notified : bool
}.

(** [response.ok] *)
Definition ok (r : response) : bool := (200 <=? status r) && (status r <=? 299).

(** [...data.images]: the elements of an array, the characters of a
    string; anything else is not iterable. *)
Fixpoint characters (s : string) : list json :=
  match s with
  | EmptyString => []
  | String c r => JStr (String c EmptyString) :: characters r
  end.

Definition spread (v : option json) : outcome (list json) :=
  match v with
  | Some (JArr items) => Return items
  | Some (JStr s) => Return (characters s)
  | _ => Throw "data.images is not iterable"
  end.

(** The [catch] block: the state is as before. *)
Definition failed (images : list json) (sent : list request) : Result :=
  {| images := images;
     shown := Some (ToastError "Failed to upload images. Please try again.");
     requests := sent;
     notified := false |}.

(** [onDrop(acceptedFiles)] with [images] the current state.  [fetch] is
    the server answering a request, [convertToBase64] the [FileReader]. *)
Definition onDrop (props : Props) (images : list json)
    (fetch : request -> response)
    (convertToBase64 : Upload.File -> outcome string)
    (acceptedFiles : list Upload.File) : Result :=
  if disabled props
  then {| images := images; shown := None; requests := []; notified := false |}
  else if maxImages props <? List.length images + List.length acceptedFiles
  then {| images := images;
          shown := Some (ToastError
                           ("Maximum " ++ JS.show_nat (maxImages props)
                            ++ " images allowed")%string);
          requests := []; notified := false |}
  else
    match find (fun file => (maxSizePerImage props * 1024 * 1024 <? Upload.size file)%N)
               acceptedFiles with
    | Some file =>
        {| images := images;
           shown := Some (ToastError
                            (Upload.name file ++ " is too large. Maximum size is "
                             ++ JS.show_N (maxSizePerImage props) ++ "MB")%string);
           requests := []; notified := false |}
    | None =>
        let response := fetch (PostFiles acceptedFiles) in
        if negb (ok response) then
          match Upload.all_settled (map convertToBase64 acceptedFiles) with
          | Throw _ => failed images [PostFiles acceptedFiles]
          | Return base64Images =>
              let fallback := PutImages (JObj [("images", JArr (map JStr base64Images))]) in
              let fallbackResponse := fetch fallback in
              if negb (ok fallbackResponse)
              then failed images [PostFiles acceptedFiles; fallback]
              else
                match spread (Json.get "images" (body fallbackResponse)) with
                | Throw _ => failed images [PostFiles acceptedFiles; fallback]
                | Return added =>
                    {| images := images ++ added;
                       shown := Some (ToastSuccess (Some (JStr
                                  (JS.show_nat (List.length acceptedFiles)
                                   ++ " image(s) uploaded successfully")%string)));
                       requests := [PostFiles acceptedFiles; fallback];
                       notified := true |}
                end
          end
        else
          match spread (Json.get "images" (body response)) with
          | Throw _ => failed images [PostFiles acceptedFiles]
          | Return added =>
              {| images := images ++ added;
                 shown := Some (ToastSuccess (Json.get "message" (body response)));
                 requests := [PostFiles acceptedFiles];
                 notified := true |}
          end
    end.

(** [images.filter((_, i) => i !== index)], counting positions from [i]. *)
Fixpoint filter_index (i index : nat) (images : list json) : list json :=
  match images with
  | [] => []
  | x :: rest =>
      if Nat.eqb i index then filter_index (S i) index rest
      else x :: filter_index (S i) index rest
  end.

(** [removeImage(index)]: the new [images]. *)
Definition removeImage (images : list json) (index : nat) : list json :=
  filter_index 0 index images.

(** The route handlers of [app/api/upload/route.ts] behind [fetch], for a
    caller with session [session]. *)
Definition server (session : option Session)
    (cloudinary : Upload.File -> outcome Upload.UploadResult)
    (clock : nat -> N) (r : request) : response :=
  match r with
  | PostFiles files => fst (Upload.POST session files cloudinary)
  | PutImages requestBody => Upload.PUT session requestBody clock
  end.

End ImageUpload.

(* ================================================================== *)
(** ** hooks/use-live-feed.ts                                          *)
(* ================================================================== *)

Module LiveFeed.

(** Decimal rendering of an integer inside a template literal. *)
Definition show_Z (z : Z) : string := NilZero.string_of_int (Z.to_int z).

Record LiveUpdate : Type := {
  id : string;
  timestamp : Z;
  message : string;
  type : string;
  priority : string
}.

(** The five [mockUpdates]; [now] is [Date.now()] when the effect runs. *)
Definition mockUpdates (now : Z) : list LiveUpdate :=
  [ {| id := "1"; timestamp := (now - 60000)%Z;
       message := "New pothole reported on Main Street";
       type := "issue"; priority := "high" |};
    {| id := "2"; timestamp := (now - 120000)%Z;
       message := "Street lights restored in Downtown Core";
       type := "resolution"; priority := "medium" |};
    {| id := "3"; timestamp := (now - 180000)%Z;
       message := "AQI Alert: Industrial East zone exceeded threshold";
       type := "alert"; priority := "high" |};
    {| id := "4"; timestamp := (now - 240000)%Z;
       message := "Jordan Blake reached Gold tier!";
       type := "achievement"; priority := "low" |};
    {| id := "5"; timestamp := (now - 300000)%Z;
       message := "Waste collection completed in Harbor District";
       type := "resolution"; priority := "medium" |} ].

(** [list.slice(0, end)] for an integer [end]: a negative [end] counts
    from the back. *)
Definition slice0 {A : Type} (l : list A) (end_ : Z) : list A :=
  let len := Z.of_nat (List.length l) in
  let k := if (end_ <? 0)%Z then Z.max (len + end_) 0 else Z.min end_ len in
  firstn (Z.to_nat k) l.

(** The values of [Math.floor(Math.random() * 4)] and
    [Math.floor(Math.random() * 3)]. *)
Inductive draw4 : Type := Q0 | Q1 | Q2 | Q3.
Inductive draw3 : Type := T0 | T1 | T2.

Definition pick4 (a b c d : string) (r : draw4) : string :=
  match r with Q0 => a | Q1 => b | Q2 => c | Q3 => d end.

Definition pick3 (a b c : string) (r : draw3) : string :=
  match r with T0 => a | T1 => b | T2 => c end.

(** The [newUpdate] of one interval tick at time [now]. *)
Definition newUpdate (now : Z) (m t : draw4) (p : draw3) : LiveUpdate :=
  {| id := show_Z now;
     timestamp := now;
     message := pick4 "New issue reported" "Task completed" "Alert triggered"
                      "Achievement unlocked" m;
     type := pick4 "issue" "resolution" "alert" "achievement" t;
     priority := pick3 "low" "medium" "high" p |}.

(** [setUpdates(mockUpdates.slice(0, itemsToShow))] *)
Definition initial (itemsToShow : Z) (now : Z) : list LiveUpdate :=
  slice0 (mockUpdates now) itemsToShow.

(** The state update of one tick:
    [[newUpdate, ...prev.slice(0, itemsToShow - 1)]]. *)
Definition tick (itemsToShow : Z) (u : LiveUpdate) (prev : list LiveUpdate)
    : list LiveUpdate :=
  u :: slice0 prev (itemsToShow - 1).

(** The state after the ticks that produced [us], oldest tick first. *)
Definition useLiveFeed (itemsToShow : Z) (now : Z) (us : list LiveUpdate)
    : list LiveUpdate :=
  fold_left (fun prev u => tick itemsToShow u prev) us (initial itemsToShow now).


Inductive trend : Type := up | down | stable.

(** The value of [Math.floor(Math.random() * 5)]. *)
Inductive draw5 : Type := F0 | F1 | F2 | F3 | F4.

Definition floor5 (r : draw5) : Z :=
  match r with F0 => 0 | F1 => 1 | F2 => 2 | F3 => 3 | F4 => 4 end%Z.

(** [Number.MAX_SAFE_INTEGER]. *)
Definition MAX_SAFE_INTEGER : Z := (2 ^ 53 - 1)%Z.

(** The integers on which a tick is computed without rounding.  The
    values of the source are doubles; for an integer [z] in this range
    each of [z - 2], ..., [z + 2] and [z + 10] is an integer of magnitude
    below [2 ^ 53], which a double holds exactly. *)
Definition in_exact_range (z : Z) : Prop := (Z.abs z <= MAX_SAFE_INTEGER - 11)%Z.

(** One interval tick of [useRealtimeData] on integer values: the new
    value and the trend set.  [maxValue || prev + 10] takes the second
    operand when [maxValue] is [undefined] or [0].  The arithmetic is that
    of the source for [prev] and [maxValue] that satisfy [in_exact_range];
    outside of it the sums of the source are rounded and this definition
    does not describe them. *)
Definition realtime_tick (maxValue : option Z) (prev : Z) (r : draw5) : Z * trend :=
  let change := (floor5 r - 2)%Z in
  let cap := match maxValue with
             | Some m => if (m =? 0)%Z then (prev + 10)%Z else m
             | None => (prev + 10)%Z
             end in
  let newValue := Z.max 0 (Z.min (prev + change) cap) in
  (newValue,
   if (0 <? change)%Z then up else if (change <? 0)%Z then down else stable).

(** The value after the ticks with draws [rs], from [initialValue]. *)
Definition useRealtimeData (initialValue : Z) (maxValue : option Z) (rs : list draw5) : Z :=
  fold_left (fun prev r => fst (realtime_tick maxValue prev r)) rs initialValue.

End LiveFeed.

(* ================================================================== *)
(** ** scripts/complete-setup-test.ts: the connection retry loop       *)
(* ================================================================== *)

Module SetupTest.

Definition maxAttempts : nat := 3.

(** What the loop leaves: [connected], [attempts], and the number of
    two-second waits. *)
Record LoopResult : Type := {
  connected : bool;
  attempts : nat;
  waits : nat
}.

(** [while (!connected && attempts < maxAttempts)], entered with
    [remaining = maxAttempts - attempts]; [dbConnect n] tells whether the
    call made in attempt [n] resolves. *)
Fixpoint retry (dbConnect : nat -> bool) (remaining attempts waits : nat) : LoopResult :=
  match remaining with
  | 0 => {| connected := false; attempts := attempts; waits := waits |}
  | S remaining' =>
      let attempts' := S attempts in
      if dbConnect attempts'
      then {| connected := true; attempts := attempts'; waits := waits |}
      else retry dbConnect remaining' attempts'
             (if attempts' <? maxAttempts then S waits else waits)
  end.

Definition connectWithRetry (dbConnect : nat -> bool) : LoopResult :=
  retry dbConnect maxAttempts 0 0.

End SetupTest.

(* ================================================================== *)
(** ** The database test script: seeding the sample users              *)
(* ================================================================== *)

Module Seed.

Import UserModel.

(** One literal of [sampleUsers]. *)
Record SampleUser : Type := {
  name : string;
  email : string;
  password : string;
  mobile : string;
  role : string
}.

Definition sampleUsers : list SampleUser :=
  [ {| name := "Test Citizen 1"; email := "citizen1@cityguardian.com";
       password := "password123"; mobile := "9876543210"; role := "citizen" |};
    {| name := "Test Employee"; email := "employee@cityguardian.com";
       password := "password123"; mobile := "9876543211"; role := "employee" |};
    {| name := "Admin User"; email := "admin@cityguardian.com";
       password := "password123"; mobile := "9876543212"; role := "admin" |} ].

(** [new User(userData)] takes the literal as it is. *)
Definition init_of (u : SampleUser) : UserInit :=
  {| init_name := Some (name u);
     init_email := Some (email u);
     init_password := Some (Bcrypt.Plain (password u));
     init_mobile := Some (mobile u);
     init_role := Some (role u);
     init_phone := None; init_address := None; init_city := None;
     init_isActive := None; init_joinedAt := None |}.

(** What the environment supplies to the iteration that handles the
    [k]-th literal: the fresh [ObjectId], the clock, the salt. *)
Record Env : Type := {
  fresh_id : nat -> nat;
  now : nat -> N;
  salt : nat -> N
}.

(** [for (const userData of sampleUsers)]: look the e-mail up, create the
    user when there is none, and push the new or the existing document;
    an error of [save] ends the script.  The result is [createdUsers] and
    the collection afterwards. *)
Fixpoint seedLoop (env : Env) (k : nat) (db : DB) (users : list SampleUser)
    : outcome (list UserDoc * DB) :=
  match users with
  | [] => Return ([], db)
  | userData :: rest =>
      match findOne db (email userData) with
      | Some existingUser =>
          match seedLoop env (S k) db rest with
          | Return (createdUsers, db') => Return (existingUser :: createdUsers, db')
          | Throw message => Throw message
          end
      | None =>
          match save db (salt env k)
                  (new_User (fresh_id env k) (now env k) (init_of userData)) with
          | Throw message => Throw message
          | Return (user, db1) =>
              match seedLoop env (S k) db1 rest with
              | Return (createdUsers, db') => Return (user :: createdUsers, db')
              | Throw message => Throw message
              end
          end
      end
  end.

Definition seedUsers (env : Env) (db : DB) : outcome (list UserDoc * DB) :=
  seedLoop env 0 db sampleUsers.

End Seed.

(* ================================================================== *)
(** ** Further vocabulary of the statements                            *)
(* ================================================================== *)

(** A string without white space. *)
Fixpoint no_space (s : string) : bool :=
  match s with
  | EmptyString => true
  | String c r => negb (JS.isWhiteSpace c) && no_space r
  end.

(** The first literal of [sampleUsers]. *)
Definition sample_citizen : Seed.SampleUser :=
  {| Seed.name := "Test Citizen 1"; Seed.email := "citizen1@cityguardian.com";
     Seed.password := "password123"; Seed.mobile := "9876543210";
     Seed.role := "citizen" |}.

(** Does the code unit [c] occur in [s]? *)
Fixpoint mem_char (c : ascii) (s : string) : bool :=
  match s with
  | EmptyString => false
  | String x r => Ascii.eqb x c || mem_char c r
  end.

(** A password that bcrypt reads whole: it holds no NUL character and its
    UTF-8 encoding has at most 71 bytes, so that the encoding and its
    terminator fit the 72 bytes of the key. *)
Definition short_password (s : string) : bool :=
  negb (mem_char zero s) && (List.length (Bcrypt.stringToBytes s) <=? 71).

(** A file that passes both checks of [POST /api/upload]: its declared
    type is on the list and its size is at most the cap. *)
Definition file_ok (f : Upload.File) : Prop :=
  In (Upload.type f) Upload.allowedTypes /\ (Upload.size f <= Upload.maxSize)%N.

(** A literal of [sampleUsers] that passes the validators of the schema. *)
Definition sample_valid (u : Seed.SampleUser) : bool :=
  JS.truthy (Seed.name u) && JS.truthy (Seed.email u)
  && JS.truthy (Seed.password u) && JS.truthy (Seed.mobile u)
  && JS.array_includes UserModel.role_enum (Seed.role u).

(* ================================================================== *)
(** * Properties                                                       *)
(* ================================================================== *)

(** ** Strings *)

Section StringFacts.

Import JS.

Lemma toLowerCase_unit_fold (c : ascii) :
  toLowerCase_unit (ascii_fold_unit c) = toLowerCase_unit c.
Proof. destruct c as [[] [] [] [] [] [] [] []]; reflexivity. Qed.

Lemma toLowerCase_unit_idem (c : ascii) :
  toLowerCase_unit (toLowerCase_unit c) = toLowerCase_unit c.
Proof. destruct c as [[] [] [] [] [] [] [] []]; reflexivity. Qed.

Lemma cls_toLowerCase_unit (c : ascii) : cls (toLowerCase_unit c) = cls c.
Proof. destruct c as [[] [] [] [] [] [] [] []]; reflexivity. Qed.

Lemma dot_toLowerCase_unit (c : ascii) :
  Ascii.eqb (toLowerCase_unit c) "." = Ascii.eqb c ".".
Proof. destruct c as [[] [] [] [] [] [] [] []]; reflexivity. Qed.

Lemma at_toLowerCase_unit (c : ascii) :
  Ascii.eqb (toLowerCase_unit c) "@" = Ascii.eqb c "@".
Proof. destruct c as [[] [] [] [] [] [] [] []]; reflexivity. Qed.

Lemma toLowerCase_fold (s : string) : toLowerCase (ascii_fold s) = toLowerCase s.
Proof.
  induction s as [|c r IH]; simpl; [reflexivity|].
  now rewrite toLowerCase_unit_fold, IH.
Qed.

(** Strings equal up to ASCII case have the same lower-case form. *)
Lemma eq_ascii_case_toLowerCase (a b : string) :
  eq_ascii_case a b -> toLowerCase a = toLowerCase b.
Proof.
  unfold eq_ascii_case; intros H.
  rewrite <- (toLowerCase_fold a), <- (toLowerCase_fold b).
  now rewrite H.
Qed.

Lemma toLowerCase_idem (s : string) : toLowerCase (toLowerCase s) = toLowerCase s.
Proof.
  induction s as [|c r IH]; simpl; [reflexivity|].
  now rewrite toLowerCase_unit_idem, IH.
Qed.

Lemma truthy_toLowerCase (s : string) : truthy (toLowerCase s) = truthy s.
Proof. destruct s; reflexivity. Qed.

Lemma truthy_true (s : string) : truthy s = true <-> s <> "".
Proof. destruct s; simpl; split; intros; congruence. Qed.

Lemma all_cls_app (a b : string) :
  all_cls (a ++ b) = all_cls a && all_cls b.
Proof.
  induction a as [|c r IH]; simpl; [reflexivity|].
  now rewrite IH, andb_assoc.
Qed.

Lemma span_cls_spec (s : string) :
  s = (fst (span_cls s) ++ snd (span_cls s))%string
  /\ all_cls (fst (span_cls s)) = true
  /\ match snd (span_cls s) with
     | String c _ => cls c = false
     | EmptyString => True
     end.
Proof.
  induction s as [|c r IH]; simpl.
  - repeat split.
  - destruct (cls c) eqn:Hc.
    + destruct (span_cls r) as [a b]; simpl in *.
      destruct IH as (H1 & H2 & H3).
      repeat split; [now rewrite H1 at 1 | now rewrite Hc, H2 | exact H3].
    + simpl. repeat split. exact Hc.
Qed.

Lemma span_cls_stop (a rest : string) (c : ascii) :
  all_cls a = true -> cls c = false ->
  span_cls (a ++ String c rest) = (a, String c rest).
Proof.
  intros Ha Hc. induction a as [|x r IH]; simpl in *.
  - now rewrite Hc.
  - apply andb_true_iff in Ha as [Hx Hr].
    now rewrite Hx, (IH Hr).
Qed.

Lemma dot_then_more_split (s : string) :
  dot_then_more s = true <->
  exists u v : string, s = (u ++ "." ++ v)%string /\ v <> "".
Proof.
  induction s as [|c r IH]; simpl.
  - split; [discriminate|].
    intros (u & v & H & _). destruct u; discriminate.
  - rewrite orb_true_iff, andb_true_iff, IH. split.
    + intros [[Hc Hr] | (u & v & H & Hv)].
      * apply Ascii.eqb_eq in Hc; subst c.
        exists "", r. split; [reflexivity|]. now apply truthy_true.
      * exists (String c u), v. split; [now rewrite H|exact Hv].
    + intros (u & v & H & Hv). destruct u as [|x u]; simpl in H.
      * injection H as -> ->. left. split; [reflexivity|].
        now apply truthy_true.
      * injection H as -> ->. right. now exists u, v.
Qed.

(** The matcher decides the regular expression. *)
Lemma emailRegex_test_spec (s : string) :
  emailRegex_test s = true <-> emailRegex_matches s.
Proof.
  unfold emailRegex_test, emailRegex_matches. split.
  - destruct (span_cls_spec s) as (Hs & Ha & _).
    destruct (span_cls s) as [a rest]; simpl in *.
    intros H. apply andb_true_iff in H as [Hne H].
    destruct rest as [|c d]; [discriminate|].
    apply andb_true_iff in H as [Hc Hd].
    apply Ascii.eqb_eq in Hc; subst c.
    unfold domain_ok in Hd. apply andb_true_iff in Hd as [Hall Hdot].
    destruct d as [|c0 r]; [discriminate|].
    apply dot_then_more_split in Hdot as (u & v & -> & Hv).
    exists a, (String c0 u), v.
    change (String c0 (u ++ "." ++ v))%string
      with (String c0 u ++ "." ++ v)%string in Hall.
    rewrite all_cls_app in Hall. apply andb_true_iff in Hall as [Hb Hv'].
    simpl in Hv'.
    repeat split; try assumption; try discriminate.
    now apply truthy_true.
  - intros (a & b & c & -> & Hane & Hbne & Hcne & Ha & Hb & Hc).
    change (a ++ "@" ++ b ++ "." ++ c)%string
      with (a ++ String "@" (b ++ "." ++ c))%string.
    rewrite span_cls_stop by (assumption || reflexivity).
    apply andb_true_iff. split; [now apply truthy_true|].
    simpl. unfold domain_ok. rewrite all_cls_app, Hb. simpl. rewrite Hc. simpl.
    destruct b as [|c0 r]; [congruence|]. simpl.
    apply dot_then_more_split. now exists r, c.
Qed.

End StringFacts.

(** ** The user collection *)

Section StoreFacts.

Import UserModel.

Lemma find_email_some (db : DB) (u : UserDoc) :
  In u db -> exists v, find (email_is (email u)) db = Some v /\ email v = email u.
Proof.
  intros Hin. destruct (find (email_is (email u)) db) as [v|] eqn:Hf.
  - exists v. split; [reflexivity|].
    apply find_some in Hf as [_ Hv]. now apply String.eqb_eq in Hv.
  - apply (find_none _ _ Hf) in Hin. unfold email_is in Hin.
    now rewrite String.eqb_refl in Hin.
Qed.

(** With pairwise different e-mails the lookup returns the very document. *)
Lemma find_email_unique (db : DB) (u : UserDoc) :
  NoDup (map email db) -> In u db -> find (email_is (email u)) db = Some u.
Proof.
  induction db as [|d rest IH]; simpl; intros Hnd Hin; [contradiction|].
  inversion Hnd as [|? ? Hnot Hnd']; subst.
  destruct Hin as [-> | Hin].
  - unfold email_is at 1. now rewrite String.eqb_refl.
  - unfold email_is at 1. destruct (String.eqb (email d) (email u)) eqn:He.
    + apply String.eqb_eq in He. exfalso. apply Hnot. rewrite He.
      now apply in_map.
    + now apply IH.
Qed.

(** A document built by the register route never passes the validators:
    the route sets [phone], the schema requires [mobile]. *)
Lemma register_document_invalid (env : Register.Env) (req : Register.RegisterBody) :
  validation_errors
    (new_User (Register.fresh_id env) (Register.now env) (Register.user_init env req))
  <> [].
Proof.
  unfold validation_errors. simpl new_mobile. simpl (check_required "mobile" _).
  intros H.
  do 3 (apply app_eq_nil in H; destruct H as [_ H]).
  discriminate.
Qed.

(** Hence the route leaves the collection as it found it. *)
Lemma register_store_unchanged (db : DB) (env : Register.Env)
    (req : Register.RegisterBody) :
  snd (Register.POST db env req) = db.
Proof.
  unfold Register.POST.
  destruct (Register.validate req); [reflexivity|].
  destruct (findOne db _); [reflexivity|].
  unfold save.
  destruct (validation_errors _) eqn:He; [|reflexivity].
  now apply register_document_invalid in He.
Qed.

(** And it never answers 201. *)
Lemma register_never_created (db : DB) (env : Register.Env)
    (req : Register.RegisterBody) :
  status (fst (Register.POST db env req)) <> 201.
Proof.
  unfold Register.POST.
  destruct (Register.validate req) as [r|] eqn:Hv.
  - unfold Register.validate in Hv.
    repeat match type of Hv with
           | (if ?c then _ else _) = _ => destruct c
           end; inversion Hv; discriminate.
  - destruct (findOne db _); [discriminate|].
    unfold save.
    destruct (validation_errors _) eqn:He.
    + now apply register_document_invalid in He.
    + unfold Register.on_error. destruct (JS.includes _ _); discriminate.
Qed.

End StoreFacts.

(** ** Registration *)

Section RegisterFacts.

Import UserModel.

(** The validation steps accept exactly the requests whose fields are
    valid and whose role is absent, empty or one of the three roles. *)
Lemma validate_accepts (req : Register.RegisterBody) :
  Register.validate req = None <->
  other_fields_valid req = true /\ Register.role_rejected (Register.role req) = false.
Proof.
  unfold Register.validate, other_fields_valid.
  destruct (JS.truthy_opt (Register.name req)), (JS.truthy_opt (Register.email req)),
    (JS.truthy_opt (Register.password req)), (JS.truthy_opt (Register.phone req)),
    (JS.truthy_opt (Register.address req)), (JS.truthy_opt (Register.city req));
    cbn [andb orb negb]; try (split; [discriminate | intros [H _]; discriminate]).
  destruct (JS.emailRegex_test _); cbn [andb orb negb];
    try (split; [discriminate | intros [H _]; discriminate]).
  destruct (Nat.ltb_spec (String.length
             match Register.password req with Some p => p | None => "" end) 6)
    as [Hlt|Hge].
  - split; [discriminate|]. intros [H _]. apply Nat.leb_le in H. lia.
  - destruct (Register.role_rejected _).
    + split; [discriminate | intros [_ H]; discriminate].
    + split; [intros _|reflexivity]. split; [|reflexivity]. now apply Nat.leb_le.
Qed.

(** Every rejection of the validation steps is a 400. *)
Lemma validate_rejects_400 (req : Register.RegisterBody) (r : response) :
  Register.validate req = Some r -> status r = 400.
Proof.
  unfold Register.validate.
  repeat match goal with
         | |- context [if ?c then _ else _] => destruct c
         end; intros H; inversion H; reflexivity.
Qed.

(** C2.  When the collection holds a user whose e-mail is the (lower-cased)
    address [E], a registration request whose e-mail equals [E] up to ASCII
    case and that passes the route's validation is answered with 409
    "User with this email already exists", and the collection is left as
    it was. *)
Theorem register_duplicate_email_conflict
    (db : DB) (env : Register.Env) (req : Register.RegisterBody)
    (u : UserDoc) (E E' : string) :
  In u db ->
  email u = JS.toLowerCase E ->
  JS.eq_ascii_case E' E ->
  Register.email req = Some E' ->
  Register.validate req = None ->
  Register.POST db env req
  = (json_error "User with this email already exists" 409, db).
Proof.
  intros Hin Hu Hcase Hreq Hvalid.
  unfold Register.POST. rewrite Hvalid, Hreq.
  unfold findOne, findOne_select_password, cast_email.
  rewrite toLowerCase_idem, (eq_ascii_case_toLowerCase _ _ Hcase), <- Hu.
  destruct (find_email_some db u Hin) as (v & -> & _).
  reflexivity.
Qed.

Lemma register_duplicate_email_conflict_witness :
  Register.POST [Sample.stored_alice] Sample.env (Sample.alice None)
  = (json_error "User with this email already exists" 409, [Sample.stored_alice]).
Proof.
  apply (register_duplicate_email_conflict
           [Sample.stored_alice] Sample.env (Sample.alice None)
           Sample.stored_alice "alice@x.com" "Alice@X.com").
  - simpl. left. reflexivity.
  - reflexivity.
  - reflexivity.
  - reflexivity.
  - reflexivity.
Defined.

(** C8.  A registration request whose password has fewer than six
    characters is answered with status 400 and creates no user, whatever
    the other fields hold. *)
Theorem register_short_password_rejected
    (db : DB) (env : Register.Env) (req : Register.RegisterBody) (p : string) :
  Register.password req = Some p ->
  String.length p < 6 ->
  status (fst (Register.POST db env req)) = 400
  /\ snd (Register.POST db env req) = db.
Proof.
  intros Hp Hlen.
  assert (Hrej : exists r, Register.validate req = Some r).
  { destruct (Register.validate req) as [r|] eqn:Hv; [now exists r|].
    apply validate_accepts in Hv as [Hv _].
    unfold other_fields_valid in Hv. rewrite Hp in Hv.
    repeat (apply andb_true_iff in Hv; destruct Hv as [Hv ?]).
    match goal with H : (6 <=? _) = true |- _ => apply Nat.leb_le in H; lia end. }
  destruct Hrej as [r Hr].
  unfold Register.POST. rewrite Hr. simpl.
  split; [now apply (validate_rejects_400 req)|reflexivity].
Qed.

Lemma register_short_password_rejected_witness :
  status (fst (Register.POST [] Sample.env Sample.alice_short)) = 400
  /\ snd (Register.POST [] Sample.env Sample.alice_short) = [].
Proof.
  apply (register_short_password_rejected [] Sample.env Sample.alice_short "secre").
  - reflexivity.
  - simpl. lia.
Defined.

(** C4.  No response of the register route has a property named
    [password] or [passwordHash], at any depth; in particular the
    [userResponse] object built for the 201 answer has none, and it is
    the same object whatever password digest the document holds. *)
Theorem register_response_hides_password
    (db : DB) (env : Register.Env) (req : Register.RegisterBody)
    (user : UserDoc) (h : option Bcrypt.secret) :
  Json.mentions "password" (body (fst (Register.POST db env req))) = false
  /\ Json.mentions "passwordHash" (body (fst (Register.POST db env req))) = false
  /\ Json.mentions "password" (Register.userResponse user) = false
  /\ Json.mentions "passwordHash" (Register.userResponse user) = false
  /\ Register.userResponse (with_password h user) = Register.userResponse user.
Proof.
  assert (Hpost : forall k, k = "password" \/ k = "passwordHash" ->
            Json.mentions k (body (fst (Register.POST db env req))) = false).
  { intros k Hk. unfold Register.POST.
    destruct (Register.validate req) as [r|] eqn:Hv.
    - unfold Register.validate in Hv.
      repeat match type of Hv with
             | (if ?c then _ else _) = _ => destruct c
             end; inversion Hv; destruct Hk as [-> | ->]; reflexivity.
    - destruct (findOne db _); [destruct Hk as [-> | ->]; reflexivity|].
      destruct (save db _ _) as [[saved db']|message].
      + destruct Hk as [-> | ->]; reflexivity.
      + unfold Register.on_error.
        destruct (JS.includes _ _); destruct Hk as [-> | ->]; reflexivity. }
  repeat split; try reflexivity; apply Hpost; auto.
Qed.

(** C10, as the code has it.  With the other fields valid: a request whose
    role is absent or the empty string passes the validation steps, and the
    document the route builds for it has role [citizen]; a request whose
    role is a non-empty string outside citizen, employee, admin is answered
    with 400 "Invalid role specified" and creates no user. *)
Theorem register_role_default_and_check
    (db : DB) (env : Register.Env) (req : Register.RegisterBody) :
  other_fields_valid req = true ->
  ((Register.role req = None \/ Register.role req = Some "") ->
     Register.validate req = None
     /\ new_role (new_User (Register.fresh_id env) (Register.now env)
                    (Register.user_init env req)) = "citizen")
  /\ (forall r, Register.role req = Some r -> r <> "" ->
        JS.array_includes Register.validRoles r = false ->
        Register.POST db env req = (json_error "Invalid role specified" 400, db)).
Proof.
  intros Hok. split.
  - intros Hrole. split.
    + apply validate_accepts. split; [exact Hok|].
      destruct Hrole as [-> | ->]; reflexivity.
    + destruct Hrole as [H | H]; simpl; rewrite H; reflexivity.
  - intros r Hr Hne Hinc.
    assert (Hrej : Register.role_rejected (Register.role req) = true).
    { rewrite Hr. unfold Register.role_rejected. rewrite Hinc.
      apply truthy_true in Hne. now rewrite Hne. }
    unfold Register.POST, Register.validate.
    unfold other_fields_valid in Hok.
    apply andb_true_iff in Hok as [Hok Hlen].
    apply andb_true_iff in Hok as [Hok Hmail].
    apply andb_true_iff in Hok as [Hok Hcity].
    apply andb_true_iff in Hok as [Hok Haddr].
    apply andb_true_iff in Hok as [Hok Hphone].
    apply andb_true_iff in Hok as [Hok Hpass].
    apply andb_true_iff in Hok as [Hname Hemail].
    rewrite Hname, Hemail, Hpass, Hphone, Haddr, Hcity, Hmail, Hrej.
    cbn [negb orb].
    apply Nat.leb_le in Hlen.
    destruct (Nat.ltb_spec (String.length
               match Register.password req with Some p => p | None => "" end) 6)
      as [Hlt|Hge]; [lia|reflexivity].
Qed.

Lemma register_role_default_and_check_witness :
  (Register.validate (Sample.alice None) = None
   /\ new_role (new_User (Register.fresh_id Sample.env) (Register.now Sample.env)
                  (Register.user_init Sample.env (Sample.alice None))) = "citizen")
  /\ Register.POST [] Sample.env (Sample.alice (Some "superuser"))
     = (json_error "Invalid role specified" 400, []).
Proof.
  split.
  - apply (register_role_default_and_check [] Sample.env (Sample.alice None)).
    + reflexivity.
    + left. reflexivity.
  - apply (register_role_default_and_check [] Sample.env
             (Sample.alice (Some "superuser")) eq_refl) with (r := "superuser").
    + reflexivity.
    + discriminate.
    + reflexivity.
Defined.

(** C10, as stated, fails on an empty role: the property is present and
    outside the three roles, yet the request is not answered with 400. *)
Lemma register_empty_role_not_rejected :
  Register.role (Sample.alice (Some "")) = Some ""
  /\ JS.array_includes Register.validRoles "" = false
  /\ Register.validate (Sample.alice (Some "")) = None
  /\ status (fst (Register.POST [] Sample.env (Sample.alice (Some "")))) <> 400.
Proof. repeat split; try reflexivity. vm_compute. discriminate. Qed.

End RegisterFacts.

(** ** The invariant of the collection *)

Section Invariant.

Import UserModel.

Lemma wf_db_empty : wf_db [].
Proof. split; constructor. Qed.

Lemma check_required_nil (path : string) (present : bool) :
  check_required path present = [] -> present = true.
Proof. destruct present; [reflexivity|discriminate]. Qed.

Lemma check_enum_nil (r : string) : check_enum r = [] -> In r role_enum.
Proof.
  unfold check_enum. destruct (JS.array_includes role_enum r) eqn:H; [|discriminate].
  intros _. unfold JS.array_includes in H.
  apply existsb_exists in H as (x & Hin & Hx).
  apply String.eqb_eq in Hx. now subst.
Qed.

(** [User.create] keeps the collection well-formed, and appends exactly
    the document it returns. *)
Lemma create_preserves_wf (db db' : DB) (fresh_id : nat) (now hook_salt : N)
    (init : UserInit) (doc : UserDoc) :
  wf_db db ->
  create db fresh_id now hook_salt init = Return (doc, db') ->
  db' = db ++ [doc] /\ wf_db db'.
Proof.
  intros [Hall Hnd]. unfold create, save.
  destruct (validation_errors _) eqn:Hval; [|discriminate].
  unfold validation_errors in Hval.
  apply app_eq_nil in Hval as [Hname Hval].
  apply app_eq_nil in Hval as [Hemail Hval].
  apply app_eq_nil in Hval as [Hpass Hval].
  apply app_eq_nil in Hval as [Hmobile Hrole].
  apply check_required_nil in Hname, Hemail, Hpass, Hmobile.
  apply check_enum_nil in Hrole.
  destruct (new_name _) as [n|] eqn:En; [|discriminate].
  destruct (new_email _) as [e|] eqn:Ee; [|discriminate].
  destruct (new_password _) as [p|] eqn:Ep; [|discriminate].
  destruct (new_mobile _) as [m|] eqn:Em; [|discriminate].
  destruct (existsb (email_is e) db) eqn:Hdup; [discriminate|].
  intros H. injection H as <- <-. split; [reflexivity|].
  split.
  - apply Forall_app. split; [exact Hall|]. constructor; [|constructor].
    unfold stored_ok; simpl.
    repeat split.
    + now apply truthy_true.
    + now apply truthy_true.
    + simpl in Ee. destruct (init_email init) as [e0|]; [|discriminate].
      injection Ee as <-. apply toLowerCase_idem.
    + unfold has_digest; simpl. now exists 10, hook_salt, p.
    + now apply truthy_true.
    + exact Hrole.
  - rewrite map_app. simpl.
    apply NoDup_app; [exact Hnd | repeat constructor; intros [] | ].
    intros x Hx [<- | []].
    apply in_map_iff in Hx as (d & Hd & Hin).
    assert (existsb (email_is (email d)) db = true) as Hex.
    { apply existsb_exists. exists d. split; [exact Hin|].
      unfold email_is. apply String.eqb_refl. }
    rewrite Hd in Hex. simpl in Hdup. congruence.
Qed.

End Invariant.

(** ** Credential verification *)

Section AuthFacts.

Import UserModel.

Lemma bytes_eqb_refl (l : list ascii) : Bcrypt.bytes_eqb l l = true.
Proof.
  induction l as [|x r IH]; simpl; [reflexivity|].
  now rewrite Ascii.eqb_refl, IH.
Qed.

Lemma bytes_eqb_eq (a b : list ascii) : Bcrypt.bytes_eqb a b = true <-> a = b.
Proof.
  revert b. induction a as [|x r IH]; intros [|y b]; simpl;
    try (split; [discriminate|discriminate]); [split; reflexivity|].
  rewrite andb_true_iff, Ascii.eqb_eq, IH. split.
  - intros [-> ->]. reflexivity.
  - intros H. injection H as -> ->. now split.
Qed.

(** The UTF-8 encoding is injective and prefix-free on code units. *)
Lemma utf8_unit_inj (c d : ascii) (r s : list ascii) :
  Bcrypt.utf8_unit c ++ r = Bcrypt.utf8_unit d ++ s -> c = d /\ r = s.
Proof.
  destruct c as [a0 a1 a2 a3 a4 a5 a6 [|]], d as [b0 b1 b2 b3 b4 b5 b6 [|]];
    cbn [Bcrypt.utf8_unit app]; intros H; inversion H; subst; split; reflexivity.
Qed.

Lemma utf8_unit_not_nil (c : ascii) (r : list ascii) : Bcrypt.utf8_unit c ++ r <> [].
Proof. destruct c as [a0 a1 a2 a3 a4 a5 a6 [|]]; discriminate. Qed.

Lemma stringToBytes_inj (p q : string) :
  Bcrypt.stringToBytes p = Bcrypt.stringToBytes q -> p = q.
Proof.
  revert q. induction p as [|c p IH]; intros [|d q]; cbn [Bcrypt.stringToBytes]; intros H.
  - reflexivity.
  - symmetry in H. now apply utf8_unit_not_nil in H.
  - now apply utf8_unit_not_nil in H.
  - apply utf8_unit_inj in H as [-> H]. f_equal. now apply IH.
Qed.

(** Only the NUL character is encoded with a zero byte. *)
Lemma stringToBytes_no_zero (s : string) :
  mem_char zero s = false -> ~ In zero (Bcrypt.stringToBytes s).
Proof.
  induction s as [|c s IH]; cbn [mem_char Bcrypt.stringToBytes].
  - intros _ [].
  - intros H. apply orb_false_iff in H as [Hc Hs].
    rewrite in_app_iff. intros [Hin|Hin]; [|now apply IH].
    apply Ascii.eqb_neq in Hc.
    destruct c as [a0 a1 a2 a3 a4 a5 a6 [|]]; cbn [Bcrypt.utf8_unit In] in Hin.
    + destruct Hin as [Hin|[Hin|[]]]; discriminate Hin.
    + destruct Hin as [Hin|[]]. now apply Hc.
Qed.

(** The key of a password of at most 71 bytes starts with its encoding
    and the terminator; the key of a longer one is its first 72 bytes. *)
Lemma key_short (s : string) :
  List.length (Bcrypt.stringToBytes s) <= 71 ->
  exists tl, Bcrypt.key s = Bcrypt.stringToBytes s ++ zero :: tl.
Proof.
  intros H. unfold Bcrypt.key.
  change (repeat (Bcrypt.stringToBytes s ++ [zero]) 72)
    with ((Bcrypt.stringToBytes s ++ [zero])
          :: repeat (Bcrypt.stringToBytes s ++ [zero]) 71).
  cbn [List.concat]. rewrite firstn_app.
  rewrite (firstn_all2 (n := 72) (Bcrypt.stringToBytes s ++ [zero]))
    by (rewrite length_app; simpl; lia).
  rewrite <- app_assoc. eexists. reflexivity.
Qed.

Lemma key_long (s : string) :
  72 <= List.length (Bcrypt.stringToBytes s) ->
  Bcrypt.key s = firstn 72 (Bcrypt.stringToBytes s).
Proof.
  intros H. unfold Bcrypt.key.
  change (repeat (Bcrypt.stringToBytes s ++ [zero]) 72)
    with ((Bcrypt.stringToBytes s ++ [zero])
          :: repeat (Bcrypt.stringToBytes s ++ [zero]) 71).
  cbn [List.concat]. rewrite <- app_assoc, firstn_app.
  replace (72 - List.length (Bcrypt.stringToBytes s)) with 0 by lia.
  rewrite firstn_O. apply app_nil_r.
Qed.

Lemma app_cons_split (z : ascii) (a b ta tb : list ascii) :
  ~ In z a -> ~ In z b -> a ++ z :: ta = b ++ z :: tb -> a = b.
Proof.
  revert b. induction a as [|x a IH]; intros [|y b] Ha Hb H; simpl in *.
  - reflexivity.
  - injection H as Hz _. exfalso. apply Hb. left. now symmetry.
  - injection H as Hz _. exfalso. apply Ha. now left.
  - injection H as -> H. f_equal. apply (IH b); [| |exact H]; intros Hin.
    + apply Ha. now right.
    + apply Hb. now right.
Qed.

(** Two short passwords with the same key are the same password. *)
Lemma short_key_inj (p q : string) :
  short_password p = true -> short_password q = true ->
  Bcrypt.key p = Bcrypt.key q -> p = q.
Proof.
  unfold short_password. intros Hp Hq Hk.
  apply andb_true_iff in Hp as [Hp Hlp], Hq as [Hq Hlq].
  apply negb_true_iff in Hp, Hq. apply Nat.leb_le in Hlp, Hlq.
  destruct (key_short p Hlp) as [tp Ep], (key_short q Hlq) as [tq Eq].
  rewrite Ep, Eq in Hk.
  apply stringToBytes_inj.
  apply (app_cons_split zero _ _ tp tq); auto using stringToBytes_no_zero.
Qed.

(** A short password shares its key with no other password free of NUL,
    of whatever length. *)
Lemma short_mismatch (p q : string) :
  short_password p = true -> mem_char zero q = false -> q <> p ->
  Bcrypt.bytes_eqb (Bcrypt.key q) (Bcrypt.key p) = false.
Proof.
  intros Hp Hq Hne.
  destruct (Bcrypt.bytes_eqb (Bcrypt.key q) (Bcrypt.key p)) eqn:E; [|reflexivity].
  apply bytes_eqb_eq in E. exfalso.
  destruct (le_lt_dec (List.length (Bcrypt.stringToBytes q)) 71) as [Hl|Hl].
  - apply Hne. apply short_key_inj; [| exact Hp | exact E].
    unfold short_password. rewrite Hq. cbn [negb andb]. now apply Nat.leb_le.
  - unfold short_password in Hp. apply andb_true_iff in Hp as [_ Hlp].
    apply Nat.leb_le in Hlp. destruct (key_short p Hlp) as [tl Ep].
    rewrite (key_long q) in E by lia. rewrite Ep in E.
    apply (stringToBytes_no_zero q Hq).
    rewrite <- (firstn_skipn 72 (Bcrypt.stringToBytes q)), E.
    apply in_or_app. left. apply in_or_app. right. now left.
Qed.

(** Two passwords of 72 bytes or more that agree on the first 72 bytes
    have the same key. *)
Lemma long_key_eq (p q : string) :
  72 <= List.length (Bcrypt.stringToBytes p) ->
  firstn 72 (Bcrypt.stringToBytes q) = firstn 72 (Bcrypt.stringToBytes p) ->
  Bcrypt.key q = Bcrypt.key p.
Proof.
  intros Hp H.
  assert (Hq : 72 <= List.length (Bcrypt.stringToBytes q)).
  { assert (L := f_equal (@List.length ascii) H).
    rewrite !length_firstn in L. lia. }
  now rewrite (key_long p Hp), (key_long q Hq).
Qed.

(** Beyond the key nothing is compared: two passwords of 73 characters
    that differ in the last one verify against the same digest, and so do
    [a] and [a], NUL, [a], whose cyclic keys coincide. *)
Example compare_beyond_the_key (rounds : nat) (salt : N) :
  let long := string_of_list_ascii (repeat "a"%char 72) in
  Bcrypt.compare (Bcrypt.Plain (long ++ "x")%string)
    (Bcrypt.hash (Bcrypt.Plain (long ++ "y")%string) rounds salt) = true
  /\ Bcrypt.compare (Bcrypt.Plain "a")
       (Bcrypt.hash (Bcrypt.Plain (String "a" (String zero "a"))) rounds salt) = true.
Proof. split; reflexivity. Qed.

(** Every input verifies against its own digest. *)
Lemma same_key_refl (s : Bcrypt.secret) : Bcrypt.same_key s s = true.
Proof.
  induction s as [t|r salt i IH]; cbn [Bcrypt.same_key].
  - apply bytes_eqb_refl.
  - now rewrite Nat.eqb_refl, N.eqb_refl, IH.
Qed.

(** In a well-formed collection, looking up a stored e-mail written in any
    ASCII case returns that user's document, password included. *)
Lemma findOne_ignores_case (db : DB) (u : UserDoc) (e : string) :
  wf_db db -> In u db -> JS.eq_ascii_case e (email u) ->
  findOne_select_password db e = Some u.
Proof.
  intros [Hall Hnd] Hin Hcase.
  unfold findOne_select_password.
  assert (Hu : stored_ok u) by (rewrite Forall_forall in Hall; now apply Hall).
  destruct Hu as (_ & _ & Hlow & _).
  unfold cast_email in *.
  rewrite (eq_ascii_case_toLowerCase _ _ Hcase), Hlow.
  now apply find_email_unique.
Qed.

(** A user stored with the digest of [p] is authenticated by [p] and the
    stored e-mail in any ASCII case. *)
Lemma authorize_stored_user (db : DB) (u : UserDoc) (e p : string)
    (rounds : nat) (salt : N) :
  wf_db db -> In u db -> JS.eq_ascii_case e (email u) ->
  password u = Some (Bcrypt.Hashed rounds salt (Bcrypt.Plain p)) ->
  e <> "" -> p <> "" ->
  exists a, Auth.authorize db (Some {| Auth.email := e; Auth.password := p |}) = Return a
            /\ Auth.user_email a = email u /\ Auth.user_role a = role u.
Proof.
  intros Hwf Hin Hcase Hpw He Hp.
  unfold Auth.authorize, Auth.verify, Auth.missing. simpl.
  apply truthy_true in He, Hp. rewrite He, Hp. simpl.
  rewrite (findOne_ignores_case db u e Hwf Hin Hcase).
  unfold comparePassword. rewrite Hpw.
  cbn [Bcrypt.compare]. rewrite same_key_refl.
  eexists. repeat split.
Qed.

(** C6, as the code has it.  For a user stored in a well-formed
    collection, a non-empty password that [comparePassword] rejects, and
    non-empty credentials whose e-mail matches no document: [authorize] of
    the route file throws "Invalid password" in the first case and
    "No user found" in the second, two different errors; [authorize] of
    the try/catch versions returns [null] in both cases, and the two
    messages only reach the server log. *)
Theorem authorize_failure_outcomes
    (db : DB) (u : UserDoc) (wrong e pw : string) :
  wf_db db -> In u db ->
  wrong <> "" ->
  comparePassword u wrong = Return false ->
  e <> "" -> pw <> "" ->
  findOne_select_password db e = None ->
  let known := Some {| Auth.email := email u; Auth.password := wrong |} in
  let unknown := Some {| Auth.email := e; Auth.password := pw |} in
  Auth.authorize db known = Throw "Invalid password"
  /\ Auth.authorize db unknown = Throw "No user found"
  /\ Auth.authorize db known <> Auth.authorize db unknown
  /\ Auth.authorize_caught db known = (None, ["Invalid password"])
  /\ Auth.authorize_caught db unknown = (None, ["No user found"])
  /\ fst (Auth.authorize_caught db known) = fst (Auth.authorize_caught db unknown).
Proof.
  intros Hwf Hin Hwrong Hcmp He Hpw Hnone known unknown.
  assert (Hu : stored_ok u).
  { destruct Hwf as [Hall _]. rewrite Forall_forall in Hall. now apply Hall. }
  destruct Hu as (_ & Hmail & _).
  assert (Hfind : findOne_select_password db (email u) = Some u).
  { apply findOne_ignores_case; [exact Hwf | exact Hin | reflexivity]. }
  apply truthy_true in Hwrong, He, Hpw, Hmail.
  assert (H1 : forall result, Auth.verify db known result = Throw "Invalid password").
  { intros result. unfold Auth.verify, Auth.missing, known. simpl.
    rewrite Hmail, Hwrong. simpl. rewrite Hfind, Hcmp. reflexivity. }
  assert (H2 : forall result, Auth.verify db unknown result = Throw "No user found").
  { intros result. unfold Auth.verify, Auth.missing, unknown. simpl.
    rewrite He, Hpw. simpl. rewrite Hnone. reflexivity. }
  unfold Auth.authorize, Auth.authorize_caught.
  rewrite !H1, !H2. repeat split. discriminate.
Qed.

Lemma authorize_failure_outcomes_witness :
  let db := [Sample.stored_alice] in
  let known := Some {| Auth.email := "alice@x.com"; Auth.password := "wrong-password" |} in
  let unknown := Some {| Auth.email := "nobody@x.com"; Auth.password := "secret1" |} in
  Auth.authorize db known = Throw "Invalid password"
  /\ Auth.authorize db unknown = Throw "No user found"
  /\ Auth.authorize db known <> Auth.authorize db unknown
  /\ Auth.authorize_caught db known = (None, ["Invalid password"])
  /\ Auth.authorize_caught db unknown = (None, ["No user found"])
  /\ fst (Auth.authorize_caught db known) = fst (Auth.authorize_caught db unknown).
Proof.
  apply (authorize_failure_outcomes [Sample.stored_alice] Sample.stored_alice
           "wrong-password" "nobody@x.com" "secret1").
  - split.
    + constructor; [|constructor].
      unfold stored_ok, has_digest; simpl.
      repeat split; try discriminate; eauto.
    + simpl. constructor; [intros []|constructor].
  - simpl. left. reflexivity.
  - discriminate.
  - reflexivity.
  - discriminate.
  - discriminate.
  - reflexivity.
Defined.

(** C6, as stated, fails on the try/catch versions of [authorize]: a wrong
    password for a stored user and an unknown e-mail give the caller the
    same result, [null]. *)
Lemma authorize_caught_indistinguishable :
  In Sample.stored_alice [Sample.stored_alice]
  /\ fst (Auth.authorize_caught [Sample.stored_alice]
            (Some {| Auth.email := "alice@x.com"; Auth.password := "wrong-password" |}))
     = None
  /\ fst (Auth.authorize_caught [Sample.stored_alice]
            (Some {| Auth.email := "nobody@x.com"; Auth.password := "wrong-password" |}))
     = None.
Proof. repeat split. simpl. now left. Qed.

(** C7.  A user the store holds under the e-mail [E], as the schema casts
    it, with the bcrypt digest of the password [P] is authenticated by
    [authorize] with [P] and any e-mail equal to [E] up to ASCII case: the
    lookup casts the e-mail of the credentials through the same lower-case
    setter, and the password verifies against its own digest.  The user
    returned is that document's, also in the versions of [authorize] that
    catch their errors.  The register route never adds a user to the
    store, so it leaves no user for whom this could fail. *)
Theorem registered_user_signs_in
    (db : DB) (u : UserDoc) (E E' P : string) (rounds : nat) (salt : N) :
  wf_db db ->
  In u db ->
  email u = cast_email E ->
  password u = Some (Bcrypt.hash (Bcrypt.Plain P) rounds salt) ->
  P <> "" ->
  JS.eq_ascii_case E' E ->
  Auth.authorize db (Some {| Auth.email := E'; Auth.password := P |})
  = Return {| Auth.id := JS.show_nat (_id u);
              Auth.user_email := email u;
              Auth.user_name := name u;
              Auth.user_role := role u;
              Auth.image := None |}
  /\ (exists a,
        Auth.authorize_caught db (Some {| Auth.email := E'; Auth.password := P |})
        = (Some a, [])
        /\ Auth.user_email a = email u /\ Auth.user_role a = role u)
  /\ (forall env req, snd (Register.POST db env req) = db).
Proof.
  intros Hwf Hin Hmail Hpw HP Hcase.
  assert (Hlow : JS.toLowerCase E' = email u).
  { rewrite Hmail. unfold cast_email. now apply eq_ascii_case_toLowerCase. }
  assert (Hu : stored_ok u).
  { destruct Hwf as [Hall _]. rewrite Forall_forall in Hall. now apply Hall. }
  destruct Hu as (_ & Hne & _).
  assert (HE' : JS.truthy E' = true).
  { rewrite <- truthy_toLowerCase, Hlow. now apply truthy_true. }
  apply truthy_true in HP.
  assert (Hfind : findOne_select_password db E' = Some u).
  { unfold findOne_select_password, cast_email. rewrite Hlow.
    apply find_email_unique; [apply Hwf|exact Hin]. }
  assert (Hcmp : comparePassword u P = Return true).
  { unfold comparePassword. rewrite Hpw. unfold Bcrypt.hash.
    cbn [Bcrypt.compare]. now rewrite same_key_refl. }
  assert (Hv : forall result,
             Auth.verify db (Some {| Auth.email := E'; Auth.password := P |}) result
             = Return (result u)).
  { intros result. unfold Auth.verify, Auth.missing.
    cbn [Auth.email Auth.password]. rewrite HE', HP. cbn [negb orb].
    now rewrite Hfind, Hcmp. }
  split; [|split].
  - unfold Auth.authorize. apply Hv.
  - unfold Auth.authorize_caught. rewrite Hv. eexists. repeat split.
  - intros env req. apply register_store_unchanged.
Qed.

Lemma registered_user_signs_in_witness :
  Auth.authorize [Sample.stored_alice]
    (Some {| Auth.email := "Alice@X.COM"; Auth.password := "secret1" |})
  = Return {| Auth.id := "1";
              Auth.user_email := "alice@x.com";
              Auth.user_name := "Alice";
              Auth.user_role := "citizen";
              Auth.image := None |}
  /\ (exists a,
        Auth.authorize_caught [Sample.stored_alice]
          (Some {| Auth.email := "Alice@X.COM"; Auth.password := "secret1" |})
        = (Some a, [])
        /\ Auth.user_email a = "alice@x.com" /\ Auth.user_role a = "citizen")
  /\ (forall env req,
        snd (Register.POST [Sample.stored_alice] env req) = [Sample.stored_alice]).
Proof.
  apply (registered_user_signs_in [Sample.stored_alice] Sample.stored_alice
           "Alice@X.com" "Alice@X.COM" "secret1" 10 9%N).
  - split.
    + constructor; [|constructor].
      unfold stored_ok, has_digest; simpl.
      repeat split; try discriminate; eauto.
    + simpl. constructor; [intros []|constructor].
  - simpl. left. reflexivity.
  - reflexivity.
  - reflexivity.
  - discriminate.
  - reflexivity.
Defined.

End AuthFacts.

(** ** Media intake *)

Section UploadFacts.

Lemma validate_rejects_oversized (files : list Upload.File) (f : Upload.File) :
  In f files -> (Upload.maxSize < Upload.size f)%N ->
  exists r, Upload.validate files = Some r /\ status r = 400 /\ Upload.handles r = [].
Proof.
  intros Hin Hbig. induction files as [|g rest IH]; [contradiction|].
  cbn [Upload.validate].
  destruct (negb (JS.array_includes Upload.allowedTypes (Upload.type g))).
  - eexists. split; [reflexivity|]. split; reflexivity.
  - destruct (N.ltb_spec Upload.maxSize (Upload.size g)) as [Hg|Hg].
    + eexists. split; [reflexivity|]. split; reflexivity.
    + destruct Hin as [-> | Hin]; [lia|]. now apply IH.
Qed.

(** C3.  When some file of a batch sent by an authenticated caller exceeds
    the cap of 10 MB, [POST /api/upload] answers 400, the response carries
    no media handle, and no file of the batch has been streamed to
    Cloudinary. *)
Theorem upload_oversized_batch_rejected
    (s : Session) (files : list Upload.File)
    (cloudinary : Upload.File -> outcome Upload.UploadResult) (f : Upload.File) :
  In f files ->
  (Upload.maxSize < Upload.size f)%N ->
  status (fst (Upload.POST (Some s) files cloudinary)) = 400
  /\ Upload.handles (fst (Upload.POST (Some s) files cloudinary)) = []
  /\ snd (Upload.POST (Some s) files cloudinary) = [].
Proof.
  intros Hin Hbig.
  destruct (validate_rejects_oversized files f Hin Hbig) as (r & Hr & Hst & Hh).
  unfold Upload.POST. destruct files as [|g rest]; [contradiction|].
  cbn [List.length Nat.eqb]. rewrite Hr. simpl. auto.
Qed.

Lemma upload_oversized_batch_rejected_witness :
  let batch := [Sample.small_jpeg; Sample.big_png; Sample.small_jpeg] in
  status (fst (Upload.POST (Some Sample.session) batch Sample.cloudinary)) = 400
  /\ Upload.handles (fst (Upload.POST (Some Sample.session) batch Sample.cloudinary)) = []
  /\ snd (Upload.POST (Some Sample.session) batch Sample.cloudinary) = [].
Proof.
  apply (upload_oversized_batch_rejected Sample.session
           [Sample.small_jpeg; Sample.big_png; Sample.small_jpeg]
           Sample.cloudinary Sample.big_png).
  - simpl. right. left. reflexivity.
  - reflexivity.
Defined.

Lemma processImages_strings (clock : nat -> N) (images : list string) (index : nat) :
  Upload.processImages clock index (map JStr images)
  = Return (string_handles clock index images).
Proof.
  revert index. induction images as [|s rest IH]; intros index; simpl.
  - reflexivity.
  - now rewrite IH.
Qed.

Lemma string_handles_length (clock : nat -> N) (images : list string) (index : nat) :
  List.length (string_handles clock index images) = List.length images.
Proof.
  revert index. induction images as [|s rest IH]; intros index; simpl; auto.
Qed.

Lemma string_handles_nth (clock : nat -> N) (images : list string)
    (index i : nat) (s : string) :
  nth_error images i = Some s ->
  nth_error (string_handles clock index images) i
  = Some (string_handle clock (index + i) s).
Proof.
  revert index i. induction images as [|x rest IH]; intros index i H.
  - destruct i; discriminate.
  - destruct i as [|i]; simpl in *.
    + injection H as ->. now rewrite Nat.add_0_r.
    + rewrite (IH (S index) i H). f_equal. f_equal. lia.
Qed.

(** The answer of [PUT] to an array of strings. *)
Lemma put_strings (s : Session) (fields : list (string * json))
    (images : list string) (clock : nat -> N) :
  Json.lookup "images" fields = Some (JArr (map JStr images)) ->
  Upload.PUT (Some s) (JObj fields) clock
  = mkResponse 200
      (JObj [ ("success", JBool true);
              ("images", JArr (string_handles clock 0 images));
              ("message",
               JStr (JS.show_nat (List.length images)
                     ++ " image(s) processed successfully")%string) ]).
Proof.
  intros H. unfold Upload.PUT. simpl. rewrite H, processImages_strings.
  now rewrite string_handles_length.
Qed.

(** C5.  For an authenticated caller and a body whose [images] is any
    array of strings, [PUT /api/upload] answers 200 with [success] and
    one media handle per string, in the order of the strings: handle [i]
    carries the [i]-th string as its [url], a [publicId] made of the time
    and of [i], no [width] and no [height], the format [base64] and the
    length of the string as [bytes].  Nothing is asked of the strings:
    neither their content (a declared type) nor their length enters the
    condition. *)
Theorem put_accepts_every_string_batch
    (s : Session) (fields : list (string * json))
    (images : list string) (clock : nat -> N) :
  Json.lookup "images" fields = Some (JArr (map JStr images)) ->
  let r := Upload.PUT (Some s) (JObj fields) clock in
  status r = 200
  /\ Json.get "success" (body r) = Some (JBool true)
  /\ Json.get "images" (body r) = Some (JArr (Upload.handles r))
  /\ Upload.handles r = string_handles clock 0 images
  /\ List.length (Upload.handles r) = List.length images
  /\ (forall i str, nth_error images i = Some str ->
        exists h, nth_error (Upload.handles r) i = Some h
                  /\ h = JObj [ ("url", JStr str);
                                ("publicId",
                                 JStr ("complaint_" ++ JS.show_N (clock i) ++ "_"
                                       ++ JS.show_nat i)%string);
                                ("width", JNull); ("height", JNull);
                                ("format", JStr "base64");
                                ("bytes", JNum (Z.of_nat (String.length str))) ]
                  /\ Json.get "url" h = Some (JStr str)
                  /\ Json.get "publicId" h
                     = Some (JStr ("complaint_" ++ JS.show_N (clock i) ++ "_"
                                   ++ JS.show_nat i)%string)
                  /\ Json.get "width" h = Some JNull
                  /\ Json.get "height" h = Some JNull
                  /\ Json.get "format" h = Some (JStr "base64")
                  /\ Json.get "bytes" h
                     = Some (JNum (Z.of_nat (String.length str)))).
Proof.
  intros H r. unfold r. rewrite (put_strings s fields images clock H).
  unfold Upload.handles. simpl.
  split; [reflexivity|]. split; [reflexivity|]. split; [reflexivity|].
  split; [reflexivity|]. split; [apply string_handles_length|].
  intros i str Hi. exists (string_handle clock i str).
  rewrite (string_handles_nth clock images 0 i str Hi). simpl.
  repeat split.
Qed.

Lemma put_accepts_every_string_batch_witness :
  let images := ["data:text/html;base64,PGI+"; ""] in
  let r := Upload.PUT (Some Sample.session)
             (JObj [("images", JArr (map JStr images))]) Sample.clock in
  status r = 200
  /\ Json.get "success" (body r) = Some (JBool true)
  /\ Json.get "images" (body r) = Some (JArr (Upload.handles r))
  /\ Upload.handles r = string_handles Sample.clock 0 images
  /\ List.length (Upload.handles r) = 2
  /\ (forall i str, nth_error images i = Some str ->
        exists h, nth_error (Upload.handles r) i = Some h
                  /\ h = JObj [ ("url", JStr str);
                                ("publicId",
                                 JStr ("complaint_" ++ JS.show_N (Sample.clock i) ++ "_"
                                       ++ JS.show_nat i)%string);
                                ("width", JNull); ("height", JNull);
                                ("format", JStr "base64");
                                ("bytes", JNum (Z.of_nat (String.length str))) ]
                  /\ Json.get "url" h = Some (JStr str)
                  /\ Json.get "publicId" h
                     = Some (JStr ("complaint_" ++ JS.show_N (Sample.clock i) ++ "_"
                                   ++ JS.show_nat i)%string)
                  /\ Json.get "width" h = Some JNull
                  /\ Json.get "height" h = Some JNull
                  /\ Json.get "format" h = Some (JStr "base64")
                  /\ Json.get "bytes" h
                     = Some (JNum (Z.of_nat (String.length str)))).
Proof.
  apply (put_accepts_every_string_batch Sample.session
           [("images", JArr (map JStr ["data:text/html;base64,PGI+"; ""]))]
           ["data:text/html;base64,PGI+"; ""] Sample.clock).
  reflexivity.
Defined.

(** A batch that [POST] refuses for its type and size is accepted by [PUT]
    once its files are encoded as strings, whatever the encoding. *)
Lemma put_accepts_what_post_rejects (convertToBase64 : Upload.File -> string) :
  let files := [ {| Upload.name := "page.html"; Upload.type := "text/html";
                    Upload.size := (12 * 1024 * 1024)%N |} ] in
  status (fst (Upload.POST (Some Sample.session) files Sample.cloudinary)) = 400
  /\ status (Upload.PUT (Some Sample.session)
               (JObj [("images", JArr (map (fun f => JStr (convertToBase64 f)) files))])
               Sample.clock) = 200.
Proof. split; reflexivity. Qed.

(** C9.  For an authenticated caller and an array of [N] strings, [PUT]
    answers 200 with exactly [N] handles in the order of the input; handle
    [i] has as [url] the [i]-th string itself and as [format] the string
    [base64].  An empty array is answered with 200 and no handle, whereas
    [POST] answers an empty batch with 400 "No files uploaded". *)
Theorem put_handles_verbatim_in_order
    (s : Session) (fields : list (string * json))
    (images : list string) (clock : nat -> N)
    (cloudinary : Upload.File -> outcome Upload.UploadResult) :
  Json.lookup "images" fields = Some (JArr (map JStr images)) ->
  let r := Upload.PUT (Some s) (JObj fields) clock in
  status r = 200
  /\ List.length (Upload.handles r) = List.length images
  /\ (forall i str, nth_error images i = Some str ->
        exists h, nth_error (Upload.handles r) i = Some h
                  /\ h = string_handle clock i str
                  /\ Json.get "url" h = Some (JStr str)
                  /\ Json.get "format" h = Some (JStr "base64"))
  /\ Upload.PUT (Some s) (JObj [("images", JArr [])]) clock
     = mkResponse 200
         (JObj [ ("success", JBool true); ("images", JArr []);
                 ("message", JStr "0 image(s) processed successfully") ])
  /\ Upload.POST (Some s) [] cloudinary = (json_error "No files uploaded" 400, []).
Proof.
  intros H r. unfold r. rewrite (put_strings s fields images clock H).
  unfold Upload.handles. simpl.
  split; [reflexivity|].
  split; [apply string_handles_length|].
  split; [|split; reflexivity].
  intros i str Hi. exists (string_handle clock i str).
  rewrite (string_handles_nth clock images 0 i str Hi). simpl.
  repeat split.
Qed.

Lemma put_handles_verbatim_in_order_witness :
  let images := ["data:image/png;base64,AAAA"; "data:image/png;base64,BBBB"] in
  let r := Upload.PUT (Some Sample.session)
             (JObj [("images", JArr (map JStr images))]) Sample.clock in
  status r = 200
  /\ List.length (Upload.handles r) = 2
  /\ (forall i str, nth_error images i = Some str ->
        exists h, nth_error (Upload.handles r) i = Some h
                  /\ h = string_handle Sample.clock i str
                  /\ Json.get "url" h = Some (JStr str)
                  /\ Json.get "format" h = Some (JStr "base64"))
  /\ Upload.PUT (Some Sample.session) (JObj [("images", JArr [])]) Sample.clock
     = mkResponse 200
         (JObj [ ("success", JBool true); ("images", JArr []);
                 ("message", JStr "0 image(s) processed successfully") ])
  /\ Upload.POST (Some Sample.session) [] Sample.cloudinary
     = (json_error "No files uploaded" 400, []).
Proof.
  apply (put_handles_verbatim_in_order Sample.session
           [("images", JArr (map JStr ["data:image/png;base64,AAAA";
                                       "data:image/png;base64,BBBB"]))]
           ["data:image/png;base64,AAAA"; "data:image/png;base64,BBBB"]
           Sample.clock Sample.cloudinary).
  reflexivity.
Defined.

End UploadFacts.

(** ** Complaint submission *)

Section ComplaintFacts.

(** The body the form sends has no [status] and no [author] property, and
    without a session the form sends nothing. *)
Lemma handleSubmit_payload (session : option Session)
    (formData : IssueForm.FormData) (uploadedImages : list json) :
  Json.get "status" (IssueForm.payload_of formData uploadedImages) = None
  /\ Json.get "author" (IssueForm.payload_of formData uploadedImages) = None
  /\ IssueForm.handleSubmit None formData uploadedImages
     = IssueForm.ToastError "Please login to submit a complaint".
Proof. repeat split. Qed.

(** C1.  A complaint that [submit] creates for a session is persisted with
    status [pending] and with the session's user id as author, whatever
    author and status the draft carries. *)
Theorem submit_sets_author_and_status
    (store store' : list Complaints.Complaint) (fresh_id : nat) (now : N)
    (session : Session) (draft : Complaints.Draft) (c : Complaints.Complaint) :
  Complaints.submit store fresh_id now (Some session) draft = (inl c, store') ->
  Complaints.status c = Complaints.pending
  /\ Complaints.author c = userId session
  /\ store' = store ++ [c].
Proof.
  unfold Complaints.submit.
  destruct (Complaints.required_present draft); intros H; [|discriminate].
  injection H as <- <-. repeat split.
Qed.

Lemma submit_sets_author_and_status_witness :
  Complaints.draft_author Sample.forged_draft = Some "2"
  /\ Complaints.draft_status Sample.forged_draft = Some Complaints.resolved
  /\ exists c,
       Complaints.submit [] 1 1700000000000%N (Some Sample.session) Sample.forged_draft
       = (inl c, [c])
       /\ Complaints.status c = Complaints.pending
       /\ Complaints.author c = "1".
Proof.
  split; [reflexivity|]. split; [reflexivity|].
  eexists. split; [reflexivity|].
  destruct (submit_sets_author_and_status [] _ 1 1700000000000%N
              Sample.session Sample.forged_draft _ eq_refl) as (Hs & Ha & _).
  split; [exact Hs | exact Ha].
Defined.

End ComplaintFacts.

(* ================================================================== *)
(** * Further properties of the handlers and of the code around them   *)
(* ================================================================== *)

(** ** Accepted e-mail addresses *)

Section EmailFacts.

Import JS.

Lemma all_cls_no_space (s : string) : all_cls s = true -> no_space s = true.
Proof.
  induction s as [|c r IH]; simpl; [reflexivity|].
  intros H. apply andb_true_iff in H as [Hc Hr].
  unfold cls in Hc. apply negb_true_iff, orb_false_iff in Hc as [Hc _].
  now rewrite Hc, (IH Hr).
Qed.

Lemma no_space_app (a b : string) :
  no_space (a ++ b) = no_space a && no_space b.
Proof.
  induction a as [|c r IH]; simpl; [reflexivity|].
  now rewrite IH, andb_assoc.
Qed.

Lemma trimEnd_no_space (s : string) : no_space s = true -> trimEnd s = s.
Proof.
  induction s as [|c r IH]; simpl; [reflexivity|].
  intros H. apply andb_true_iff in H as [Hc Hr].
  rewrite (IH Hr). apply negb_true_iff in Hc. rewrite Hc.
  destruct r; reflexivity.
Qed.

Lemma trim_no_space (s : string) : no_space s = true -> trim s = s.
Proof.
  intros H. unfold trim.
  assert (Hs : trimStart s = s).
  { destruct s as [|c r]; [reflexivity|]. simpl in *.
    apply andb_true_iff in H as [Hc _]. apply negb_true_iff in Hc.
    now rewrite Hc. }
  rewrite Hs. now apply trimEnd_no_space.
Qed.

Lemma emailRegex_no_space (s : string) :
  emailRegex_test s = true -> no_space s = true.
Proof.
  intros H. apply emailRegex_test_spec in H.
  destruct H as (a & b & c & -> & _ & _ & _ & Ha & Hb & Hc).
  rewrite !no_space_app.
  rewrite (all_cls_no_space a Ha), (all_cls_no_space b Hb), (all_cls_no_space c Hc).
  reflexivity.
Qed.

Lemma toLowerCase_app (a b : string) :
  toLowerCase (a ++ b) = (toLowerCase a ++ toLowerCase b)%string.
Proof. induction a as [|c r IH]; simpl; [reflexivity|]. now rewrite IH. Qed.

Lemma all_cls_toLowerCase (s : string) : all_cls (toLowerCase s) = all_cls s.
Proof.
  induction s as [|c r IH]; simpl; [reflexivity|].
  now rewrite cls_toLowerCase_unit, IH.
Qed.

Lemma emailRegex_toLowerCase (s : string) :
  emailRegex_test s = true -> emailRegex_test (toLowerCase s) = true.
Proof.
  intros H. apply emailRegex_test_spec in H. apply emailRegex_test_spec.
  destruct H as (a & b & c & -> & Ha0 & Hb0 & Hc0 & Ha & Hb & Hc).
  exists (toLowerCase a), (toLowerCase b), (toLowerCase c).
  rewrite !toLowerCase_app, !all_cls_toLowerCase.
  repeat split; try assumption;
    intros E; [apply Ha0 | apply Hb0 | apply Hc0];
    match goal with
    | H : toLowerCase ?x = "" |- _ => destruct x; [reflexivity | discriminate]
    end.
Qed.

(** X1.  Acceptance by the e-mail pattern, as a property of the address:
    it is accepted exactly when it is [local@domain] with one [@], no
    white space anywhere, a non-empty local part and a domain with a dot
    that is neither its first nor its last character.  Lower-casing keeps
    an accepted address accepted. *)
Theorem email_pattern_accepts (s : string) :
  (emailRegex_test s = true <->
   exists local domain : string,
     s = (local ++ "@" ++ domain)%string
     /\ local <> ""
     /\ all_cls local = true /\ all_cls domain = true
     /\ exists b c : string, domain = (b ++ "." ++ c)%string /\ b <> "" /\ c <> "")
  /\ (emailRegex_test s = true ->
      no_space s = true /\ emailRegex_test (toLowerCase s) = true).
Proof.
  split; [split|].
  - intros H. apply emailRegex_test_spec in H.
    destruct H as (a & b & c & -> & Ha0 & Hb0 & Hc0 & Ha & Hb & Hc).
    exists a, (b ++ "." ++ c)%string. repeat split; try assumption.
    + rewrite all_cls_app, Hb. simpl. now rewrite Hc.
    + now exists b, c.
  - intros (local & domain & -> & Hl0 & Hl & Hd & b & c & -> & Hb0 & Hc0).
    apply emailRegex_test_spec. exists local, b, c.
    rewrite all_cls_app in Hd. apply andb_true_iff in Hd as [Hb Hc].
    simpl in Hc. repeat split; assumption.
  - intros H. split; [now apply emailRegex_no_space | now apply emailRegex_toLowerCase].
Qed.

Lemma email_pattern_accepts_witness :
  no_space "Alice@X.com" = true /\ emailRegex_test (toLowerCase "Alice@X.com") = true.
Proof.
  apply (proj2 (email_pattern_accepts "Alice@X.com")). reflexivity.
Defined.

End EmailFacts.

(** ** The register route and the user model together *)

Section RegisterModelFacts.

Import UserModel.

(** X2.  Whatever the request and the collection, the register route
    answers 400, 409 or 500 and leaves the collection as it found it: the
    document it builds sets [phone] where the schema requires [mobile],
    so [save] always rejects it. *)
Theorem register_never_persists
    (db : DB) (env : Register.Env) (req : Register.RegisterBody) :
  snd (Register.POST db env req) = db
  /\ (status (fst (Register.POST db env req)) = 400
      \/ status (fst (Register.POST db env req)) = 409
      \/ status (fst (Register.POST db env req)) = 500)
  /\ forall init, init = Register.user_init env req -> init_mobile init = None.
Proof.
  split; [apply register_store_unchanged|]. split.
  - unfold Register.POST.
    destruct (Register.validate req) as [r|] eqn:Hv.
    + left. now apply (validate_rejects_400 req).
    + destruct (findOne db _); [right; left; reflexivity|].
      unfold save. destruct (validation_errors _) eqn:He.
      * now apply register_document_invalid in He.
      * unfold Register.on_error.
        destruct (JS.includes _ _); [right; left | right; right]; reflexivity.
  - intros init ->. reflexivity.
Qed.

(** X3.  For a request that passes validation, the e-mail of the document
    the route builds is [email.toLowerCase()]: [trim] removes nothing from
    an accepted address and the schema's setter changes nothing more.  It
    is the very key the duplicate check has looked up. *)
Theorem register_stores_looked_up_email
    (env : Register.Env) (req : Register.RegisterBody) (e : string) :
  Register.email req = Some e ->
  Register.validate req = None ->
  new_email (new_User (Register.fresh_id env) (Register.now env)
               (Register.user_init env req))
  = Some (JS.toLowerCase e)
  /\ cast_email (JS.toLowerCase e) = JS.toLowerCase e.
Proof.
  intros He Hv. apply validate_accepts in Hv as [Hok _].
  unfold other_fields_valid in Hok. rewrite He in Hok.
  apply andb_true_iff in Hok as [Hok _].
  apply andb_true_iff in Hok as [_ Hmail].
  split; [|apply toLowerCase_idem].
  simpl. rewrite He. simpl. unfold cast_email.
  rewrite trim_no_space.
  - now rewrite toLowerCase_idem.
  - apply emailRegex_no_space. now apply emailRegex_toLowerCase.
Qed.

Lemma register_stores_looked_up_email_witness :
  new_email (new_User (Register.fresh_id Sample.env) (Register.now Sample.env)
               (Register.user_init Sample.env (Sample.alice None)))
  = Some (JS.toLowerCase "Alice@X.com")
  /\ cast_email (JS.toLowerCase "Alice@X.com") = JS.toLowerCase "Alice@X.com".
Proof.
  apply (register_stores_looked_up_email Sample.env (Sample.alice None) "Alice@X.com");
    reflexivity.
Defined.

(** X4.  [User.create] on a well-formed collection: the collection stays
    well-formed and gains exactly the returned document; that document is
    then found under its e-mail written in any ASCII case, with the
    password only when it is selected; the documents stored before are
    still found; and the stored digest verifies the password given.  When
    that password is short (no NUL character, at most 71 bytes of UTF-8)
    every other password without NUL is rejected; of a password of 72
    bytes or more only the first 72 bytes are compared. *)
Theorem create_then_find
    (db db' : DB) (fresh_id : nat) (now hook_salt : N)
    (init : UserInit) (doc : UserDoc) :
  wf_db db ->
  create db fresh_id now hook_salt init = Return (doc, db') ->
  wf_db db' /\ db' = db ++ [doc]
  /\ (forall e, JS.eq_ascii_case e (email doc) ->
        findOne_select_password db' e = Some doc
        /\ findOne db' e = Some (project doc)
        /\ password (project doc) = None)
  /\ (forall u, In u db -> findOne_select_password db' (email u) = Some u)
  /\ (forall p, init_password init = Some (Bcrypt.Plain p) ->
        comparePassword doc p = Return true
        /\ (forall q, short_password p = true -> mem_char zero q = false ->
               q <> p -> comparePassword doc q = Return false)
        /\ (forall q, 72 <= List.length (Bcrypt.stringToBytes p) ->
               firstn 72 (Bcrypt.stringToBytes q)
               = firstn 72 (Bcrypt.stringToBytes p) ->
               comparePassword doc q = Return true)).
Proof.
  intros Hwf Hc.
  destruct (create_preserves_wf db db' fresh_id now hook_salt init doc Hwf Hc)
    as [Hdb Hwf'].
  split; [exact Hwf'|]. split; [exact Hdb|].
  assert (Hin : In doc db') by (rewrite Hdb; apply in_or_app; right; now left).
  split; [|split].
  - intros e He.
    assert (Hf : findOne_select_password db' e = Some doc)
      by now apply findOne_ignores_case.
    unfold findOne. rewrite Hf. repeat split.
  - intros u Hu. apply findOne_ignores_case; [exact Hwf' | | reflexivity].
    rewrite Hdb. apply in_or_app. now left.
  - intros p Hp.
    assert (Hcmp : forall q, comparePassword doc q
                             = Return (Bcrypt.bytes_eqb (Bcrypt.key q) (Bcrypt.key p))).
    { intros q. unfold create, save in Hc.
      destruct (validation_errors _); [|discriminate].
      simpl in Hc. rewrite Hp in Hc.
      destruct (init_name init); [|discriminate].
      destruct (option_map cast_email (init_email init)); [|discriminate].
      destruct (init_mobile init); [|discriminate].
      destruct (existsb _ db); [discriminate|].
      injection Hc as <- _. reflexivity. }
    split; [|split].
    + now rewrite Hcmp, bytes_eqb_refl.
    + intros q Hsp Hq Hne. now rewrite Hcmp, short_mismatch.
    + intros q Hlen Hpre. rewrite Hcmp, (long_key_eq p q Hlen Hpre).
      now rewrite bytes_eqb_refl.
Qed.

Lemma create_then_find_witness :
  exists doc db',
    create [] 1 1700000000000%N 9%N (Seed.init_of sample_citizen)
    = Return (doc, db')
    /\ wf_db db' /\ db' = [] ++ [doc]
    /\ (forall e, JS.eq_ascii_case e (email doc) ->
          findOne_select_password db' e = Some doc
          /\ findOne db' e = Some (project doc)
          /\ password (project doc) = None)
    /\ (forall u, In u [] -> findOne_select_password db' (email u) = Some u)
    /\ (forall p, init_password (Seed.init_of sample_citizen)
                  = Some (Bcrypt.Plain p) ->
          comparePassword doc p = Return true
          /\ (forall q, short_password p = true -> mem_char zero q = false ->
                 q <> p -> comparePassword doc q = Return false)
          /\ (forall q, 72 <= List.length (Bcrypt.stringToBytes p) ->
                 firstn 72 (Bcrypt.stringToBytes q)
                 = firstn 72 (Bcrypt.stringToBytes p) ->
                 comparePassword doc q = Return true)).
Proof.
  eexists. eexists. split; [reflexivity|].
  apply (create_then_find [] _ 1 1700000000000%N 9%N
           (Seed.init_of sample_citizen) _ wf_db_empty).
  reflexivity.
Defined.

(** X5.  [User.create] with an e-mail that equals a stored one up to ASCII
    case, on a document that passes the validators, throws the duplicate
    key error of the unique index, and the [catch] block of the register
    route answers such an error with 409. *)
Theorem create_rejects_duplicate
    (db : DB) (fresh_id : nat) (now hook_salt : N) (init : UserInit)
    (u : UserDoc) (e : string) :
  In u db ->
  cast_email (email u) = email u ->
  init_email init = Some e ->
  JS.eq_ascii_case e (email u) ->
  validation_errors (new_User fresh_id now init) = [] ->
  create db fresh_id now hook_salt init = Throw (duplicate_key_message (email u))
  /\ Register.on_error (duplicate_key_message (email u))
     = json_error "User with this email already exists" 409.
Proof.
  intros Hin Hlow He Hcase Hval. split.
  - unfold create, save. rewrite Hval.
    unfold validation_errors in Hval.
    apply app_eq_nil in Hval as [Hname Hval].
    apply app_eq_nil in Hval as [Hemail Hval].
    apply app_eq_nil in Hval as [Hpass Hval].
    apply app_eq_nil in Hval as [Hmobile _].
    apply check_required_nil in Hname, Hpass, Hmobile.
    simpl in *. rewrite He in *. simpl.
    destruct (init_name init); [|discriminate].
    destruct (init_password init); [|discriminate].
    destruct (init_mobile init); [|discriminate].
    unfold cast_email in *.
    rewrite (eq_ascii_case_toLowerCase _ _ Hcase), Hlow.
    assert (Hex : existsb (email_is (email u)) db = true).
    { apply existsb_exists. exists u. split; [exact Hin|].
      unfold email_is. apply String.eqb_refl. }
    now rewrite Hex.
  - reflexivity.
Qed.

Lemma create_rejects_duplicate_witness :
  create [Sample.stored_alice] 2 1700000000000%N 9%N
    (with_mobile "555-1000" (Register.user_init Sample.env (Sample.alice None)))
  = Throw (duplicate_key_message "alice@x.com")
  /\ Register.on_error (duplicate_key_message "alice@x.com")
     = json_error "User with this email already exists" 409.
Proof.
  apply (create_rejects_duplicate [Sample.stored_alice] 2 1700000000000%N 9%N
           (with_mobile "555-1000" (Register.user_init Sample.env (Sample.alice None)))
           Sample.stored_alice "alice@x.com").
  - simpl. now left.
  - reflexivity.
  - reflexivity.
  - reflexivity.
  - reflexivity.
Defined.

End RegisterModelFacts.

(** ** Credential verification and the session callbacks *)

Section AuthMoreFacts.

Import UserModel.

Lemma wf_db_sample : wf_db [Sample.stored_alice].
Proof.
  split.
  - constructor; [|constructor].
    unfold stored_ok, has_digest; simpl.
    repeat split; try discriminate; eauto.
  - simpl. constructor; [intros []|constructor].
Qed.

(** X6.  [authorize] never returns a user without a match: when it
    returns, the credentials are non-empty, the collection holds a
    document whose e-mail is the lower-cased e-mail of the credentials,
    [comparePassword] accepted the password against that document, and
    the identity returned is that document's. *)
Theorem authorize_sound
    (db : DB) (credentials : option Auth.Credentials) (a : Auth.AuthUser) :
  Auth.authorize db credentials = Return a ->
  exists c u,
    credentials = Some c
    /\ Auth.email c <> "" /\ Auth.password c <> ""
    /\ In u db
    /\ email u = JS.toLowerCase (Auth.email c)
    /\ comparePassword u (Auth.password c) = Return true
    /\ Auth.id a = JS.show_nat (_id u)
    /\ Auth.user_email a = email u
    /\ Auth.user_name a = name u
    /\ Auth.user_role a = role u.
Proof.
  unfold Auth.authorize, Auth.verify.
  destruct credentials as [c|]; [|discriminate].
  destruct (Auth.missing (Some c)) eqn:Hm; [discriminate|].
  simpl in Hm. apply orb_false_iff in Hm as [He Hp].
  apply negb_false_iff, truthy_true in He, Hp.
  unfold findOne_select_password.
  destruct (find _ db) as [u|] eqn:Hf; [|discriminate].
  apply find_some in Hf as [Hin Hu].
  apply String.eqb_eq in Hu.
  destruct (comparePassword u (Auth.password c)) as [[|]|] eqn:Hc; try discriminate.
  intros H. injection H as <-. exists c, u. simpl. repeat split; assumption.
Qed.

Lemma authorize_sound_witness :
  exists c u,
    Some {| Auth.email := "ALICE@x.com"; Auth.password := "secret1" |} = Some c
    /\ Auth.email c <> "" /\ Auth.password c <> ""
    /\ In u [Sample.stored_alice]
    /\ email u = JS.toLowerCase (Auth.email c)
    /\ comparePassword u (Auth.password c) = Return true
    /\ "1" = JS.show_nat (_id u)
    /\ "alice@x.com" = email u
    /\ "Alice" = name u
    /\ "citizen" = role u.
Proof.
  exact (authorize_sound [Sample.stored_alice]
           (Some {| Auth.email := "ALICE@x.com"; Auth.password := "secret1" |})
           {| Auth.id := "1"; Auth.user_email := "alice@x.com";
              Auth.user_name := "Alice"; Auth.user_role := "citizen";
              Auth.image := None |}
           eq_refl).
Defined.

(** X7.  The try/catch versions of [authorize] follow the route's version:
    where that one returns a user they return a user with the same id,
    e-mail, name and role (and an [image] property) and log nothing;
    where it throws they return [null] and log the message thrown. *)
Theorem authorize_caught_follows_authorize
    (db : DB) (credentials : option Auth.Credentials) :
  match Auth.authorize db credentials with
  | Return a =>
      exists a', Auth.authorize_caught db credentials = (Some a', [])
                 /\ Auth.id a' = Auth.id a
                 /\ Auth.user_email a' = Auth.user_email a
                 /\ Auth.user_name a' = Auth.user_name a
                 /\ Auth.user_role a' = Auth.user_role a
                 /\ Auth.image a' <> None
  | Throw message => Auth.authorize_caught db credentials = (None, [message])
  end.
Proof.
  unfold Auth.authorize, Auth.authorize_caught, Auth.verify.
  destruct credentials as [c|]; [|reflexivity].
  destruct (Auth.missing (Some c)); [reflexivity|].
  destruct (findOne_select_password db (Auth.email c)) as [u|]; [|reflexivity].
  destruct (comparePassword u (Auth.password c)) as [[|]|]; try reflexivity.
  eexists. split; [reflexivity|]. simpl. repeat split. discriminate.
Qed.

(** X8.  A user created through the model with a plain password can sign
    in: with the e-mail in any ASCII case and that password [authorize]
    returns the new document's identity.  When the password is short (no
    NUL character, at most 71 bytes of UTF-8), [authorize] throws "Invalid
    password" for every other non-empty password without NUL; when the
    password has 72 bytes or more, any password with the same first 72
    bytes signs in as well. *)
Theorem create_then_authorize
    (db db' : DB) (fresh_id : nat) (now hook_salt : N)
    (init : UserInit) (doc : UserDoc) (e p : string) :
  wf_db db ->
  create db fresh_id now hook_salt init = Return (doc, db') ->
  init_password init = Some (Bcrypt.Plain p) ->
  JS.eq_ascii_case e (email doc) ->
  Auth.authorize db' (Some {| Auth.email := e; Auth.password := p |})
  = Return {| Auth.id := JS.show_nat (_id doc);
              Auth.user_email := email doc;
              Auth.user_name := name doc;
              Auth.user_role := role doc;
              Auth.image := None |}
  /\ (forall q, q <> "" -> q <> p ->
        short_password p = true -> mem_char zero q = false ->
        Auth.authorize db' (Some {| Auth.email := e; Auth.password := q |})
        = Throw "Invalid password")
  /\ (forall q, 72 <= List.length (Bcrypt.stringToBytes p) ->
        firstn 72 (Bcrypt.stringToBytes q) = firstn 72 (Bcrypt.stringToBytes p) ->
        Auth.authorize db' (Some {| Auth.email := e; Auth.password := q |})
        = Auth.authorize db' (Some {| Auth.email := e; Auth.password := p |})).
Proof.
  intros Hwf Hc Hp Hcase.
  destruct (create_preserves_wf db db' fresh_id now hook_salt init doc Hwf Hc)
    as [Hdb Hwf'].
  assert (Hin : In doc db') by (rewrite Hdb; apply in_or_app; right; now left).
  assert (Hfind : findOne_select_password db' e = Some doc)
    by now apply findOne_ignores_case.
  assert (Hcmp : forall q, comparePassword doc q
                           = Return (Bcrypt.bytes_eqb (Bcrypt.key q) (Bcrypt.key p))).
  { intros q. unfold create, save in Hc.
    destruct (validation_errors _); [|discriminate].
    simpl in Hc. rewrite Hp in Hc.
    destruct (init_name init); [|discriminate].
    destruct (option_map cast_email (init_email init)); [|discriminate].
    destruct (init_mobile init); [|discriminate].
    destruct (existsb _ db); [discriminate|].
    injection Hc as <- _. reflexivity. }
  assert (Hpne : JS.truthy p = true).
  { unfold create, save in Hc.
    destruct (validation_errors _) eqn:Hval; [|discriminate].
    unfold validation_errors in Hval.
    apply app_eq_nil in Hval as [_ Hval].
    apply app_eq_nil in Hval as [_ Hval].
    apply app_eq_nil in Hval as [Hpass _].
    apply check_required_nil in Hpass. simpl in Hpass.
    now rewrite Hp in Hpass. }
  assert (Hene : JS.truthy e = true).
  { assert (Hd : stored_ok doc).
    { destruct Hwf' as [Hall _]. rewrite Forall_forall in Hall. now apply Hall. }
    destruct Hd as (_ & Hmail & _).
    destruct e; [|reflexivity].
    unfold JS.eq_ascii_case in Hcase. simpl in Hcase.
    destruct (email doc); [congruence|discriminate]. }
  assert (Hok : forall q, JS.truthy q = true -> Bcrypt.key q = Bcrypt.key p ->
             Auth.authorize db' (Some {| Auth.email := e; Auth.password := q |})
             = Return {| Auth.id := JS.show_nat (_id doc);
                         Auth.user_email := email doc;
                         Auth.user_name := name doc;
                         Auth.user_role := role doc;
                         Auth.image := None |}).
  { intros q Hq Hk.
    unfold Auth.authorize, Auth.verify, Auth.missing.
    cbn [Auth.email Auth.password].
    rewrite Hene, Hq. cbn [negb orb].
    now rewrite Hfind, Hcmp, Hk, bytes_eqb_refl. }
  split; [|split].
  - now apply Hok.
  - intros q Hq Hne Hsp Hsq. apply truthy_true in Hq.
    unfold Auth.authorize, Auth.verify, Auth.missing.
    cbn [Auth.email Auth.password].
    rewrite Hene, Hq. cbn [negb orb].
    now rewrite Hfind, Hcmp, short_mismatch.
  - intros q Hlen Hpre.
    rewrite (Hok p Hpne eq_refl). apply Hok; [|now apply long_key_eq].
    destruct q; [|reflexivity].
    apply (f_equal (@List.length ascii)) in Hpre.
    rewrite !length_firstn in Hpre. cbn [Bcrypt.stringToBytes List.length] in Hpre. lia.
Qed.

Lemma create_then_authorize_witness :
  exists doc db',
    create [Sample.stored_alice] 2 1700000000000%N 9%N (Seed.init_of sample_citizen)
    = Return (doc, db')
    /\ Auth.authorize db'
         (Some {| Auth.email := "Citizen1@CityGuardian.com"; Auth.password := "password123" |})
       = Return {| Auth.id := "2";
                   Auth.user_email := "citizen1@cityguardian.com";
                   Auth.user_name := "Test Citizen 1";
                   Auth.user_role := "citizen";
                   Auth.image := None |}
    /\ (forall q, q <> "" -> q <> "password123" ->
          short_password "password123" = true -> mem_char zero q = false ->
          Auth.authorize db'
            (Some {| Auth.email := "Citizen1@CityGuardian.com"; Auth.password := q |})
          = Throw "Invalid password")
    /\ (forall q, 72 <= List.length (Bcrypt.stringToBytes "password123") ->
          firstn 72 (Bcrypt.stringToBytes q)
          = firstn 72 (Bcrypt.stringToBytes "password123") ->
          Auth.authorize db'
            (Some {| Auth.email := "Citizen1@CityGuardian.com"; Auth.password := q |})
          = Auth.authorize db'
              (Some {| Auth.email := "Citizen1@CityGuardian.com";
                       Auth.password := "password123" |})).
Proof.
  eexists. eexists. split; [reflexivity|].
  exact (create_then_authorize [Sample.stored_alice] _ 2 1700000000000%N 9%N
           (Seed.init_of sample_citizen) _ "Citizen1@CityGuardian.com" "password123"
           wf_db_sample eq_refl eq_refl eq_refl).
Defined.

(** X9.  Identity and role in the session.  In each of the three option
    files, the [jwt] callback run at sign-in with the user [authorize]
    returned puts that user's id and role in the token, later runs
    (without a user) return the token unchanged, and the [session]
    callback then yields a session whose user has exactly that id and
    role, whatever the token and the session held before; the first
    try/catch version also sets e-mail and name from the user. *)
Theorem session_carries_authorized_identity
    (a : Auth.AuthUser) (t0 : Callbacks.JWT) (s : Callbacks.SessionObject)
    (su : Callbacks.SessionUser) (refreshes : nat) :
  Callbacks.user s = Some su ->
  let t := Nat.iter refreshes (fun t => Callbacks.jwt t None)
             (Callbacks.jwt t0 (Some a)) in
  let t' := Nat.iter refreshes (fun t => Callbacks.jwt_full t None)
              (Callbacks.jwt_full t0 (Some a)) in
  let identified :=
    {| Callbacks.user :=
         Some {| Callbacks.su_id := Some (Auth.id a);
                 Callbacks.su_role := Some (Auth.user_role a);
                 Callbacks.su_email := Callbacks.su_email su;
                 Callbacks.su_name := Callbacks.su_name su;
                 Callbacks.su_image := Callbacks.su_image su |};
       Callbacks.expires := Callbacks.expires s |} in
  Callbacks.session s t = Return identified
  /\ Callbacks.session_guarded s t = identified
  /\ Callbacks.session_spread s t'
     = {| Callbacks.user :=
            Some {| Callbacks.su_id := Some (Auth.id a);
                    Callbacks.su_role := Some (Auth.user_role a);
                    Callbacks.su_email := Some (Auth.user_email a);
                    Callbacks.su_name := Some (Auth.user_name a);
                    Callbacks.su_image := Callbacks.su_image su |};
          Callbacks.expires := Callbacks.expires s |}.
Proof.
  intros Hs t t' identified.
  assert (Hiter : forall (jwt : Callbacks.JWT -> option Auth.AuthUser -> Callbacks.JWT),
             (forall t, jwt t None = t) ->
             forall n t, Nat.iter n (fun t => jwt t None) t = t).
  { intros jwt Hnone n x. induction n as [|n IH]; [reflexivity|].
    now rewrite Nat.iter_succ, IH. }
  assert (H1 : t = Callbacks.jwt t0 (Some a)) by (apply Hiter; reflexivity).
  assert (H2 : t' = Callbacks.jwt_full t0 (Some a)) by (apply Hiter; reflexivity).
  rewrite H1, H2.
  unfold identified, Callbacks.session, Callbacks.session_guarded,
    Callbacks.session_spread.
  rewrite Hs. repeat split.
Qed.

Lemma session_carries_authorized_identity_witness :
  let a := {| Auth.id := "1"; Auth.user_email := "alice@x.com";
              Auth.user_name := "Alice"; Auth.user_role := "citizen";
              Auth.image := None |} in
  let t0 := {| Callbacks.token_id := None; Callbacks.token_role := None;
               Callbacks.token_email := Some "alice@x.com";
               Callbacks.token_name := Some "Alice" |} in
  let su := {| Callbacks.su_id := None; Callbacks.su_role := None;
               Callbacks.su_email := Some "alice@x.com";
               Callbacks.su_name := Some "Alice"; Callbacks.su_image := None |} in
  let s := {| Callbacks.user := Some su; Callbacks.expires := "2026-01-01" |} in
  Callbacks.session s
    (Nat.iter 3 (fun t => Callbacks.jwt t None) (Callbacks.jwt t0 (Some a)))
  = Return {| Callbacks.user :=
                Some {| Callbacks.su_id := Some "1";
                        Callbacks.su_role := Some "citizen";
                        Callbacks.su_email := Some "alice@x.com";
                        Callbacks.su_name := Some "Alice";
                        Callbacks.su_image := None |};
              Callbacks.expires := "2026-01-01" |}.
Proof.
  intros a t0 su s.
  exact (proj1 (session_carries_authorized_identity a t0 s su 3 eq_refl)).
Defined.

End AuthMoreFacts.

(** ** More on media intake *)

Section UploadMoreFacts.

Lemma array_includes_In (arr : list string) (x : string) :
  JS.array_includes arr x = true <-> In x arr.
Proof.
  unfold JS.array_includes. rewrite existsb_exists. split.
  - intros (y & Hin & Hy). apply String.eqb_eq in Hy. now subst.
  - intros Hin. exists x. split; [exact Hin|apply String.eqb_refl].
Qed.

Lemma validate_none_iff (files : list Upload.File) :
  Upload.validate files = None <-> Forall file_ok files.
Proof.
  induction files as [|f rest IH]; cbn [Upload.validate].
  - split; [constructor|reflexivity].
  - destruct (JS.array_includes Upload.allowedTypes (Upload.type f)) eqn:Ht; cbn [negb].
    + destruct (N.ltb_spec Upload.maxSize (Upload.size f)) as [Hs|Hs].
      * split; [discriminate|]. intros H. inversion H as [|? ? [_ Hok] _]; subst. lia.
      * rewrite IH. split.
        -- intros H. constructor; [|exact H]. split; [|exact Hs].
           now apply array_includes_In.
        -- intros H. now inversion H.
    + split; [discriminate|]. intros H. inversion H as [|? ? [Hok _] _]; subst.
      apply array_includes_In in Hok. congruence.
Qed.

Lemma validate_some_400 (files : list Upload.File) (r : response) :
  Upload.validate files = Some r -> status r = 400 /\ Upload.handles r = [].
Proof.
  induction files as [|f rest IH]; cbn [Upload.validate]; [discriminate|].
  destruct (negb _).
  - intros H. injection H as <-. split; reflexivity.
  - destruct (_ <? _)%N.
    + intros H. injection H as <-. split; reflexivity.
    + exact IH.
Qed.

(** X10.  The validation loop of [POST /api/upload] accepts a batch
    exactly when every file has one of the four allowed types and a size
    of at most 10485760 bytes (a file of exactly that size passes); every
    rejection is a 400 without handles. *)
Theorem upload_validation_accepts (files : list Upload.File) :
  (Upload.validate files = None <-> Forall file_ok files)
  /\ Upload.maxSize = 10485760%N
  /\ (forall r, Upload.validate files = Some r ->
        status r = 400 /\ Upload.handles r = []).
Proof.
  split; [apply validate_none_iff|]. split; [reflexivity|].
  apply validate_some_400.
Qed.

(** X11.  [POST /api/upload] streams all of a batch or none of it: when
    any file reaches Cloudinary, the caller had a session, every file of
    the batch passed validation, and the whole batch was streamed. *)
Theorem upload_streams_all_or_nothing
    (session : option Session) (files : list Upload.File)
    (cloudinary : Upload.File -> outcome Upload.UploadResult) (f : Upload.File) :
  In f (snd (Upload.POST session files cloudinary)) ->
  session <> None
  /\ Forall file_ok files
  /\ snd (Upload.POST session files cloudinary) = files.
Proof.
  unfold Upload.POST.
  destruct session as [s|]; [|intros []].
  destruct (List.length files =? 0); [intros []|].
  destruct (Upload.validate files) eqn:Hv; [intros []|].
  apply validate_none_iff in Hv.
  destruct (Upload.all_settled _); intros _; repeat split; try discriminate; exact Hv.
Qed.

Lemma upload_streams_all_or_nothing_witness :
  Some Sample.session <> None
  /\ Forall file_ok [Sample.small_jpeg]
  /\ snd (Upload.POST (Some Sample.session) [Sample.small_jpeg] Sample.cloudinary)
     = [Sample.small_jpeg].
Proof.
  apply (upload_streams_all_or_nothing (Some Sample.session) [Sample.small_jpeg]
           Sample.cloudinary Sample.small_jpeg).
  simpl. now left.
Defined.

Lemma all_settled_map_return {A B : Type} (f : A -> outcome B) (g : A -> B)
    (l : list A) :
  (forall x, In x l -> f x = Return (g x)) ->
  Upload.all_settled (map f l) = Return (map g l).
Proof.
  induction l as [|x rest IH]; intros H; simpl; [reflexivity|].
  rewrite (H x) by now left.
  rewrite IH; [reflexivity|]. intros y Hy. apply H. now right.
Qed.

Lemma all_settled_throw {A B : Type} (f : A -> outcome B) (l : list A)
    (x : A) (m : string) :
  In x l -> f x = Throw m -> exists m', Upload.all_settled (map f l) = Throw m'.
Proof.
  induction l as [|y rest IH]; intros Hin Hx; [contradiction|]. simpl.
  destruct (f y) as [b|m0] eqn:Hy; [|now exists m0].
  destruct Hin as [-> | Hin]; [congruence|].
  destruct (IH Hin Hx) as [m' ->]. now exists m'.
Qed.

(** X12.  A non-empty batch of an authenticated caller in which every file
    passes validation and every upload resolves is answered with 200, one
    handle per file in the order of the batch, each built from the result
    of that file's upload, and a message that counts them. *)
Theorem upload_success
    (s : Session) (files : list Upload.File)
    (cloudinary : Upload.File -> outcome Upload.UploadResult)
    (result : Upload.File -> Upload.UploadResult) :
  files <> [] ->
  Forall file_ok files ->
  (forall f, In f files -> cloudinary f = Return (result f)) ->
  Upload.POST (Some s) files cloudinary
  = (mkResponse 200
       (JObj [ ("success", JBool true);
               ("images", JArr (map (fun f => Upload.handle_of_result (result f)) files));
               ("message",
                JStr (JS.show_nat (List.length files)
                      ++ " image(s) uploaded successfully")%string) ]),
     files).
Proof.
  intros Hne Hok Hres. unfold Upload.POST.
  destruct files as [|f rest]; [congruence|].
  cbn [List.length Nat.eqb].
  apply validate_none_iff in Hok. rewrite Hok.
  rewrite (all_settled_map_return cloudinary result _ Hres).
  now rewrite map_map, length_map.
Qed.

Lemma upload_success_witness :
  exists body,
    Upload.POST (Some Sample.session) [Sample.small_jpeg; Sample.small_jpeg]
      Sample.cloudinary
    = (mkResponse 200 body, [Sample.small_jpeg; Sample.small_jpeg])
    /\ List.length (Upload.handles (mkResponse 200 body)) = 2.
Proof.
  eexists. split.
  - apply (upload_success Sample.session [Sample.small_jpeg; Sample.small_jpeg]
             Sample.cloudinary
             (fun f => {| Upload.secure_url :=
                            ("https://res.cloudinary.com/" ++ Upload.name f)%string;
                          Upload.public_id := Upload.name f;
                          Upload.width := 1200%Z; Upload.height := 800%Z;
                          Upload.format := "jpg"; Upload.bytes := 1024%Z |})).
    + discriminate.
    + assert (Hok : file_ok Sample.small_jpeg).
      { split; [simpl; now left | vm_compute; discriminate]. }
      constructor; [exact Hok|]. constructor; [exact Hok|]. constructor.
    + intros f _. reflexivity.
  - reflexivity.
Defined.

(** X13.  When a batch passes validation and the upload of one of its
    files is rejected, the answer is 500 "Failed to upload images" without
    any handle, although every file of the batch has been streamed to
    Cloudinary: the uploads that resolved are not taken back. *)
Theorem upload_upstream_failure
    (s : Session) (files : list Upload.File)
    (cloudinary : Upload.File -> outcome Upload.UploadResult)
    (f : Upload.File) (m : string) :
  Forall file_ok files ->
  In f files ->
  cloudinary f = Throw m ->
  exists details,
    Upload.POST (Some s) files cloudinary
    = (mkResponse 500 (JObj [ ("error", JStr "Failed to upload images");
                              ("details", JStr details) ]),
       files)
    /\ Upload.handles (fst (Upload.POST (Some s) files cloudinary)) = [].
Proof.
  intros Hok Hin Hf. unfold Upload.POST.
  destruct files as [|g rest]; [contradiction|].
  cbn [List.length Nat.eqb].
  apply validate_none_iff in Hok. rewrite Hok.
  destruct (all_settled_throw cloudinary (g :: rest) f m Hin Hf) as [m' ->].
  exists m'. split; reflexivity.
Qed.

Lemma upload_upstream_failure_witness :
  let cloudinary f :=
    if String.eqb (Upload.name f) "b.png" then Throw "Request Timeout"
    else Sample.cloudinary f in
  let a := {| Upload.name := "a.png"; Upload.type := "image/png"; Upload.size := 10%N |} in
  let b := {| Upload.name := "b.png"; Upload.type := "image/png"; Upload.size := 10%N |} in
  exists details,
    Upload.POST (Some Sample.session) [a; b] cloudinary
    = (mkResponse 500 (JObj [ ("error", JStr "Failed to upload images");
                              ("details", JStr details) ]),
       [a; b])
    /\ Upload.handles (fst (Upload.POST (Some Sample.session) [a; b] cloudinary)) = [].
Proof.
  intros cloudinary a b.
  apply (upload_upstream_failure Sample.session [a; b] cloudinary b "Request Timeout").
  - constructor; [|constructor; [|constructor]];
      (split; [simpl; right; right; now left | vm_compute; discriminate]).
  - simpl. right. now left.
  - reflexivity.
Defined.

End UploadMoreFacts.

(** ** The base64 fallback on arbitrary JSON *)

Section PutFacts.

Lemma processImage_fields (clock : nat -> N) (i : nat) (x h : json) :
  Upload.processImage clock i x = Return h ->
  x <> JNull
  /\ Json.get "url" h = Some x
  /\ Json.get "publicId" h
     = Some (JStr ("complaint_" ++ JS.show_N (clock i) ++ "_" ++ JS.show_nat i)%string)
  /\ Json.get "format" h = Some (JStr "base64").
Proof.
  unfold Upload.processImage.
  destruct (Upload.length_of x) as [len|m] eqn:Hl; [|discriminate].
  intros H. injection H as <-.
  split; [intros ->; discriminate|].
  destruct len; repeat split.
Qed.

Lemma processImage_defined (clock : nat -> N) (i : nat) (x : json) :
  x <> JNull -> exists h, Upload.processImage clock i x = Return h.
Proof.
  intros Hx. unfold Upload.processImage.
  destruct x; try congruence; simpl; eexists; reflexivity.
Qed.

Lemma processImages_null (clock : nat -> N) (items : list json) (k : nat) :
  In JNull items -> exists m, Upload.processImages clock k items = Throw m.
Proof.
  revert k. induction items as [|x rest IH]; intros k Hin; [contradiction|].
  simpl. destruct (Upload.processImage clock k x) as [h|m] eqn:Hp; [|now exists m].
  destruct Hin as [-> | Hin]; [discriminate|].
  destruct (IH (S k) Hin) as [m ->]. now exists m.
Qed.

Lemma processImages_defined (clock : nat -> N) (items : list json) (k : nat) :
  ~ In JNull items ->
  exists hs,
    Upload.processImages clock k items = Return hs
    /\ List.length hs = List.length items
    /\ forall i x, nth_error items i = Some x ->
         exists h, nth_error hs i = Some h
                   /\ Upload.processImage clock (k + i) x = Return h.
Proof.
  revert k. induction items as [|x rest IH]; intros k Hnot.
  - exists []. repeat split. intros [|i] y H; discriminate.
  - assert (Hx : x <> JNull) by (intros ->; apply Hnot; now left).
    assert (Hrest : ~ In JNull rest) by (intros H; apply Hnot; now right).
    destruct (processImage_defined clock k x Hx) as [h Hh].
    destruct (IH (S k) Hrest) as (hs & Hhs & Hlen & Hnth).
    exists (h :: hs). simpl. rewrite Hh, Hhs. repeat split.
    + now rewrite Hlen.
    + intros [|i] y Hy; simpl in *.
      * injection Hy as <-. exists h. now rewrite Nat.add_0_r.
      * destruct (Hnth i y Hy) as (h' & H1 & H2). exists h'.
        split; [exact H1|]. now rewrite Nat.add_succ_r.
Qed.

(** X14.  [PUT /api/upload] on any JSON body, for an authenticated caller.
    When [images] is an array, the answer is 200 exactly when no element
    is [null]: then there is one handle per element, in order, whose
    [url] is the element itself, of whatever JSON type, and whose [format]
    is [base64]; a [null] element makes the answer 500 without handles.
    A body other than [null] whose [images] is not an array is answered
    with 400 "Invalid images data". *)
Theorem put_on_any_body
    (s : Session) (requestBody : json) (items : list json) (clock : nat -> N) :
  Json.get "images" requestBody = Some (JArr items) ->
  let r := Upload.PUT (Some s) requestBody clock in
  (In JNull items -> status r = 500 /\ Upload.handles r = [])
  /\ (~ In JNull items ->
      status r = 200
      /\ List.length (Upload.handles r) = List.length items
      /\ forall i x, nth_error items i = Some x ->
           exists h, nth_error (Upload.handles r) i = Some h
                     /\ Json.get "url" h = Some x
                     /\ Json.get "format" h = Some (JStr "base64"))
  /\ (forall other, other <> JNull ->
        (forall l, Json.get "images" other <> Some (JArr l)) ->
        Upload.PUT (Some s) other clock = json_error "Invalid images data" 400).
Proof.
  intros Himg r. split; [|split].
  - intros Hnull. unfold r, Upload.PUT.
    destruct requestBody; try discriminate. rewrite Himg.
    destruct (processImages_null clock items 0 Hnull) as [m ->].
    split; reflexivity.
  - intros Hnot. unfold r, Upload.PUT.
    destruct requestBody; try discriminate. rewrite Himg.
    destruct (processImages_defined clock items 0 Hnot) as (hs & -> & Hlen & Hnth).
    unfold Upload.handles. simpl. repeat split; [exact Hlen|].
    intros i x Hx. destruct (Hnth i x Hx) as (h & H1 & H2).
    exists h. split; [exact H1|].
    apply processImage_fields in H2 as (_ & Hurl & _ & Hfmt). now split.
  - intros other Hother Hno. unfold Upload.PUT.
    destruct other; try congruence; try reflexivity.
    destruct (Json.get "images" (JObj fields)) as [[| | | |l|]|] eqn:Hg; try reflexivity.
    now elim (Hno l).
Qed.

Lemma put_on_any_body_witness :
  let body := JObj [("images", JArr [JNum 5; JStr "x"])] in
  let r := Upload.PUT (Some Sample.session) body Sample.clock in
  status r = 200
  /\ List.length (Upload.handles r) = 2
  /\ forall i x, nth_error [JNum 5; JStr "x"] i = Some x ->
       exists h, nth_error (Upload.handles r) i = Some h
                 /\ Json.get "url" h = Some x
                 /\ Json.get "format" h = Some (JStr "base64").
Proof.
  intros body r.
  apply (put_on_any_body Sample.session body [JNum 5; JStr "x"] Sample.clock eq_refl).
  simpl. intros [H | [H | []]]; discriminate.
Defined.

End PutFacts.

(** ** Public ids of the fallback handles *)

Section PublicIdFacts.

Lemma unorm_not_nil (d : Decimal.uint) : Decimal.unorm d <> Decimal.Nil.
Proof. unfold Decimal.unorm. destruct (Decimal.nzhead d); discriminate. Qed.

Lemma nat_to_uint_not_nil (n : nat) : Nat.to_uint n <> Decimal.Nil.
Proof.
  rewrite <- (DecimalNat.Unsigned.of_to n), DecimalNat.Unsigned.to_of.
  apply unorm_not_nil.
Qed.

Lemma show_nat_inj (n m : nat) : JS.show_nat n = JS.show_nat m -> n = m.
Proof.
  unfold JS.show_nat. intros H.
  apply DecimalNat.Unsigned.to_uint_inj.
  assert (Hn := NilZero.usu _ (nat_to_uint_not_nil n)).
  assert (Hm := NilZero.usu _ (nat_to_uint_not_nil m)).
  rewrite H in Hn. congruence.
Qed.

Lemma digits_no_underscore (d : Decimal.uint) :
  mem_char "_" (NilZero.string_of_uint d) = false.
Proof.
  assert (H : mem_char "_" (NilEmpty.string_of_uint d) = false)
    by (induction d; simpl; auto).
  destruct d; solve [exact H | reflexivity].
Qed.

Lemma split_at_underscore (a a' b b' : string) :
  mem_char "_" a = false -> mem_char "_" a' = false ->
  (a ++ "_" ++ b)%string = (a' ++ "_" ++ b')%string ->
  a = a' /\ b = b'.
Proof.
  revert a'. induction a as [|c r IH]; intros [|c' r'] Ha Ha' H; simpl in *.
  - injection H as ->. now split.
  - injection H as <- _. rewrite Ascii.eqb_refl in Ha'. discriminate.
  - injection H as -> _. rewrite Ascii.eqb_refl in Ha. discriminate.
  - injection H as -> H.
    apply orb_false_iff in Ha as [_ Ha]. apply orb_false_iff in Ha' as [_ Ha'].
    destruct (IH r' Ha Ha' H) as [-> ->]. now split.
Qed.

(** X15.  In one answer of [PUT /api/upload], the handles of different
    positions carry different [publicId]s, whatever the clock returns:
    the id ends in the position, written in decimal after the last
    underscore. *)
Theorem put_public_ids_distinct
    (s : Session) (requestBody : json) (items : list json) (clock : nat -> N)
    (i j : nat) (hi hj : json) :
  Json.get "images" requestBody = Some (JArr items) ->
  ~ In JNull items ->
  nth_error (Upload.handles (Upload.PUT (Some s) requestBody clock)) i = Some hi ->
  nth_error (Upload.handles (Upload.PUT (Some s) requestBody clock)) j = Some hj ->
  i <> j ->
  Json.get "publicId" hi <> Json.get "publicId" hj.
Proof.
  intros Himg Hnot Hi Hj Hij.
  unfold Upload.PUT in Hi, Hj.
  destruct requestBody; try discriminate. rewrite Himg in Hi, Hj.
  destruct (processImages_defined clock items 0 Hnot) as (hs & Hhs & Hlen & Hnth).
  rewrite Hhs in Hi, Hj. unfold Upload.handles in Hi, Hj. simpl in Hi, Hj.
  assert (Hidx : forall k h, nth_error hs k = Some h ->
            Json.get "publicId" h
            = Some (JStr ("complaint_" ++ JS.show_N (clock k) ++ "_"
                          ++ JS.show_nat k)%string)).
  { intros k h Hk.
    assert (Hlt : k < List.length items).
    { rewrite <- Hlen. apply nth_error_Some. congruence. }
    destruct (nth_error items k) as [x|] eqn:Hx;
      [|apply nth_error_None in Hx; lia].
    destruct (Hnth k x Hx) as (h' & H1 & H2).
    assert (h' = h) by congruence. subst h'.
    now apply processImage_fields in H2 as (_ & _ & Hid & _). }
  rewrite (Hidx i hi Hi), (Hidx j hj Hj). intros H.
  injection H as H.
  apply split_at_underscore in H as [_ H];
    [| apply digits_no_underscore | apply digits_no_underscore].
  apply Hij. now apply show_nat_inj.
Qed.

Lemma put_public_ids_distinct_witness :
  let body := JObj [("images", JArr [JStr "a"; JStr "a"])] in
  let handles := Upload.handles (Upload.PUT (Some Sample.session) body Sample.clock) in
  exists hi hj,
    nth_error handles 0 = Some hi /\ nth_error handles 1 = Some hj
    /\ Json.get "url" hi = Json.get "url" hj
    /\ Json.get "publicId" hi <> Json.get "publicId" hj.
Proof.
  intros body handles. eexists. eexists.
  split; [reflexivity|]. split; [reflexivity|]. split; [reflexivity|].
  apply (put_public_ids_distinct Sample.session body [JStr "a"; JStr "a"]
           Sample.clock 0 1 _ _ eq_refl).
  - simpl. intros [H | [H | []]]; discriminate.
  - reflexivity.
  - reflexivity.
  - discriminate.
Defined.

End PublicIdFacts.

(** ** The complaint form *)

Section IssueFormFacts.

(** X16.  [handleSubmit] sends a request exactly when there is a session
    and type, title, description, address and mobile are all non-empty;
    the request is then a POST to [/api/complaints] whose body has the
    seven properties of the form, with the uploaded images as they are;
    in every other case it only shows an error and sends nothing.
    Neither the contact e-mail nor the priority is checked. *)
Theorem handleSubmit_sends_iff_complete
    (session : option Session) (formData : IssueForm.FormData)
    (uploadedImages : list json) :
  let complete :=
    session <> None
    /\ IssueForm.type formData <> "" /\ IssueForm.title formData <> ""
    /\ IssueForm.description formData <> "" /\ IssueForm.address formData <> ""
    /\ IssueForm.mobile formData <> "" in
  match IssueForm.handleSubmit session formData uploadedImages with
  | IssueForm.Fetch endpoint method payload =>
      complete
      /\ endpoint = "/api/complaints" /\ method = "POST"
      /\ Json.get "images" payload = Some (JArr uploadedImages)
      /\ match payload with
         | JObj fields =>
             Json.keys fields
             = ["title"; "type"; "description"; "location"; "priority";
                "contact"; "images"]
         | _ => False
         end
  | IssueForm.ToastError _ => ~ complete
  end.
Proof.
  intros complete. unfold IssueForm.handleSubmit, complete.
  destruct session as [s|]; [|intros (H & _); congruence].
  destruct (IssueForm.type formData) eqn:E1; simpl;
    [intros (_ & H & _); congruence|].
  destruct (IssueForm.title formData) eqn:E2; simpl;
    [intros (_ & _ & H & _); congruence|].
  destruct (IssueForm.description formData) eqn:E3; simpl;
    [intros (_ & _ & _ & H & _); congruence|].
  destruct (IssueForm.address formData) eqn:E4; simpl;
    [intros (_ & _ & _ & _ & H & _); congruence|].
  destruct (IssueForm.mobile formData) eqn:E5; simpl;
    [intros (_ & _ & _ & _ & _ & H); congruence|].
  repeat split; discriminate.
Qed.

End IssueFormFacts.

(** ** The image picker *)

Section ImageUploadFacts.

Import ImageUpload.

Lemma all_settled_length {A : Type} (results : list (outcome A)) (l : list A) :
  Upload.all_settled results = Return l -> List.length l = List.length results.
Proof.
  revert l. induction results as [|r rest IH]; intros l; simpl.
  - intros H. injection H as <-. reflexivity.
  - destruct r as [a|m]; [|discriminate].
    destruct (Upload.all_settled rest) as [l'|m]; [|discriminate].
    intros H. injection H as <-. simpl. now rewrite (IH l' eq_refl).
Qed.

(** What an accepted [POST] carries: one handle per file. *)
Lemma post_ok_images (session : option Session) (files : list Upload.File)
    (cloudinary : Upload.File -> outcome Upload.UploadResult) :
  ok (fst (Upload.POST session files cloudinary)) = true ->
  exists added,
    spread (Json.get "images" (body (fst (Upload.POST session files cloudinary))))
    = Return added
    /\ List.length added = List.length files.
Proof.
  unfold Upload.POST.
  destruct session as [s|]; [|discriminate].
  destruct (List.length files =? 0); [discriminate|].
  destruct (Upload.validate files) as [r|] eqn:Hv.
  - apply validate_some_400 in Hv as [Hst _]. simpl. unfold ok. now rewrite Hst.
  - destruct (Upload.all_settled _) as [l|m] eqn:Hs; [|discriminate].
    intros _. simpl. eexists. split; [reflexivity|].
    rewrite length_map, (all_settled_length _ _ Hs). apply length_map.
Qed.

(** What [PUT] answers to the strings of the fallback. *)
Lemma put_fallback (session : option Session) (base64Images : list string)
    (clock : nat -> N) :
  let r := Upload.PUT session (JObj [("images", JArr (map JStr base64Images))]) clock in
  match session with
  | Some _ =>
      ok r = true
      /\ spread (Json.get "images" (body r)) = Return (string_handles clock 0 base64Images)
  | None => ok r = false
  end.
Proof.
  destruct session as [s|]; [|reflexivity]. cbv zeta.
  rewrite (put_strings s [("images", JArr (map JStr base64Images))]
             base64Images clock eq_refl).
  split; reflexivity.
Qed.

(** X17.  The picker never holds more than [maxImages] images: with the
    upload route behind [fetch], a run of [onDrop] that starts within the
    limit ends within it, whatever is dropped, whoever the caller is and
    however Cloudinary and the file reader answer; and it only ever
    appends to the images held. *)
Theorem onDrop_keeps_limit
    (props : Props) (held : list json) (session : option Session)
    (cloudinary : Upload.File -> outcome Upload.UploadResult) (clock : nat -> N)
    (convertToBase64 : Upload.File -> outcome string)
    (acceptedFiles : list Upload.File) :
  List.length held <= maxImages props ->
  let r := onDrop props held (server session cloudinary clock)
             convertToBase64 acceptedFiles in
  List.length (images r) <= maxImages props
  /\ exists added, images r = held ++ added.
Proof.
  intros Hheld r.
  assert (Hsame : forall r0, images r0 = held ->
            List.length (images r0) <= maxImages props
            /\ exists added, images r0 = held ++ added).
  { intros r0 ->. split; [exact Hheld|]. exists []. now rewrite app_nil_r. }
  assert (Hadd : forall r0 added, images r0 = held ++ added ->
            List.length added = List.length acceptedFiles ->
            List.length held + List.length acceptedFiles <= maxImages props ->
            List.length (images r0) <= maxImages props
            /\ exists added, images r0 = held ++ added).
  { intros r0 added -> Hl Hle. split; [|now exists added].
    rewrite length_app. lia. }
  unfold r, onDrop.
  destruct (disabled props); [now apply Hsame|].
  destruct (Nat.ltb_spec (maxImages props)
              (List.length held + List.length acceptedFiles)) as [Hgt|Hle];
    [now apply Hsame|].
  destruct (find _ acceptedFiles); [now apply Hsame|].
  cbn [server].
  destruct (ok (fst (Upload.POST session acceptedFiles cloudinary))) eqn:Hok; cbn [negb].
  - destruct (post_ok_images session acceptedFiles cloudinary Hok)
      as (added & -> & Hlen).
    now apply (Hadd _ added).
  - destruct (Upload.all_settled (map convertToBase64 acceptedFiles))
      as [base64Images|m] eqn:Hconv; [|now apply Hsame].
    pose proof (put_fallback session base64Images clock) as Hput. cbv zeta in Hput.
    destruct session as [s|].
    + destruct Hput as [-> ->]. cbn [negb].
      apply (Hadd _ (string_handles clock 0 base64Images)); [reflexivity| |exact Hle].
      rewrite string_handles_length, (all_settled_length _ _ Hconv).
      apply length_map.
    + rewrite Hput. now apply Hsame.
Qed.

Lemma onDrop_keeps_limit_witness :
  let r := onDrop defaults [JStr "held"] (server (Some Sample.session) Sample.cloudinary
                                            Sample.clock)
             (fun f => Return (Upload.name f)) [Sample.small_jpeg; Sample.big_png] in
  List.length (images r) <= 5 /\ exists added, images r = [JStr "held"] ++ added.
Proof.
  apply (onDrop_keeps_limit defaults [JStr "held"] (Some Sample.session)
           Sample.cloudinary Sample.clock (fun f => Return (Upload.name f))
           [Sample.small_jpeg; Sample.big_png]).
  simpl. lia.
Defined.

End ImageUploadFacts.

Section ImageUploadMoreFacts.

Import ImageUpload.

Lemma find_oversized_none (cap : N) (files : list Upload.File) :
  (forall f, In f files -> (Upload.size f <= cap)%N) ->
  find (fun file => (cap <? Upload.size file)%N) files = None.
Proof.
  intros H. destruct (find _ files) as [f|] eqn:Hf; [|reflexivity].
  apply find_some in Hf as [Hin Hbig]. apply N.ltb_lt in Hbig.
  specialize (H f Hin). lia.
Qed.

(** X18.  For a caller with a session, a drop that passes the picker's own
    checks (not disabled, count and sizes within the limits) and whose
    files the reader can encode always ends with the whole batch added
    and a success toast.  When the batch fails the validation of [POST]
    (a type that is not allowed, say), what is added are the fallback's
    handles: the encoded files, stored as they are. *)
Theorem onDrop_adds_whole_batch
    (props : Props) (held : list json) (s : Session)
    (cloudinary : Upload.File -> outcome Upload.UploadResult) (clock : nat -> N)
    (convertToBase64 : Upload.File -> outcome string)
    (encoded : Upload.File -> string)
    (acceptedFiles : list Upload.File) :
  disabled props = false ->
  List.length held + List.length acceptedFiles <= maxImages props ->
  (forall f, In f acceptedFiles ->
     (Upload.size f <= maxSizePerImage props * 1024 * 1024)%N) ->
  (forall f, In f acceptedFiles -> convertToBase64 f = Return (encoded f)) ->
  let r := onDrop props held (server (Some s) cloudinary clock)
             convertToBase64 acceptedFiles in
  List.length (images r) = List.length held + List.length acceptedFiles
  /\ notified r = true
  /\ (exists m, shown r = Some (ToastSuccess m))
  /\ (Upload.validate acceptedFiles <> None ->
      images r = held ++ string_handles clock 0 (map encoded acceptedFiles)
      /\ requests r
         = [ PostFiles acceptedFiles;
             PutImages (JObj [("images", JArr (map JStr (map encoded acceptedFiles)))]) ]).
Proof.
  intros Hen Hcount Hsize Hconv r. unfold r, onDrop.
  rewrite Hen.
  destruct (Nat.ltb_spec (maxImages props)
              (List.length held + List.length acceptedFiles)) as [Hgt|_]; [lia|].
  rewrite (find_oversized_none _ _ Hsize).
  rewrite (all_settled_map_return convertToBase64 encoded _ Hconv).
  cbn [server].
  pose proof (put_fallback (Some s) (map encoded acceptedFiles) clock) as Hput.
  cbv zeta in Hput. destruct Hput as [Hput1 Hput2].
  destruct (ok (fst (Upload.POST (Some s) acceptedFiles cloudinary))) eqn:Hok; cbn [negb].
  - destruct (post_ok_images (Some s) acceptedFiles cloudinary Hok)
      as (added & -> & Hlen).
    cbn [images notified shown requests]. rewrite length_app, Hlen.
    split; [reflexivity|]. split; [reflexivity|].
    split; [eexists; reflexivity|].
    intros Hv. exfalso. revert Hok. unfold Upload.POST.
    destruct (List.length acceptedFiles =? 0); [discriminate|].
    destruct (Upload.validate acceptedFiles) as [rej|] eqn:Hrej; [|congruence].
    apply validate_some_400 in Hrej as [Hst _]. simpl. unfold ok. now rewrite Hst.
  - rewrite Hput1, Hput2. cbn [negb images notified shown requests].
    rewrite length_app, string_handles_length, length_map.
    split; [reflexivity|]. split; [reflexivity|].
    split; [eexists; reflexivity|].
    intros _. split; reflexivity.
Qed.

Lemma onDrop_adds_whole_batch_witness :
  let gif := {| Upload.name := "anim.gif"; Upload.type := "image/gif";
                Upload.size := 2048%N |} in
  let r := onDrop defaults [] (server (Some Sample.session) Sample.cloudinary Sample.clock)
             (fun f => Return ("data:" ++ Upload.type f ++ ";base64,AAAA")%string) [gif] in
  List.length (images r) = 0 + 1
  /\ notified r = true
  /\ (exists m, shown r = Some (ToastSuccess m))
  /\ (Upload.validate [gif] <> None ->
      images r = [] ++ string_handles Sample.clock 0 ["data:image/gif;base64,AAAA"]
      /\ requests r
         = [ PostFiles [gif];
             PutImages (JObj [("images", JArr [JStr "data:image/gif;base64,AAAA"])]) ]).
Proof.
  intros gif.
  apply (onDrop_adds_whole_batch defaults [] Sample.session Sample.cloudinary
           Sample.clock
           (fun f => Return ("data:" ++ Upload.type f ++ ";base64,AAAA")%string)
           (fun f => ("data:" ++ Upload.type f ++ ";base64,AAAA")%string) [gif]).
  - reflexivity.
  - simpl. lia.
  - intros f [<- | []]. vm_compute. discriminate.
  - intros f _. reflexivity.
Defined.

(** X19.  Without a session nothing is added: a drop that passes the
    picker's checks is sent to [POST], refused, encoded and sent to [PUT],
    refused again, and ends with the images as they were and the error
    toast. *)
Theorem onDrop_without_session
    (props : Props) (held : list json)
    (cloudinary : Upload.File -> outcome Upload.UploadResult) (clock : nat -> N)
    (convertToBase64 : Upload.File -> outcome string)
    (encoded : Upload.File -> string)
    (acceptedFiles : list Upload.File) :
  disabled props = false ->
  List.length held + List.length acceptedFiles <= maxImages props ->
  (forall f, In f acceptedFiles ->
     (Upload.size f <= maxSizePerImage props * 1024 * 1024)%N) ->
  (forall f, In f acceptedFiles -> convertToBase64 f = Return (encoded f)) ->
  onDrop props held (server None cloudinary clock) convertToBase64 acceptedFiles
  = {| images := held;
       shown := Some (ToastError "Failed to upload images. Please try again.");
       requests :=
         [ PostFiles acceptedFiles;
           PutImages (JObj [("images", JArr (map JStr (map encoded acceptedFiles)))]) ];
       notified := false |}.
Proof.
  intros Hen Hcount Hsize Hconv. unfold onDrop.
  rewrite Hen.
  destruct (Nat.ltb_spec (maxImages props)
              (List.length held + List.length acceptedFiles)) as [Hgt|_]; [lia|].
  rewrite (find_oversized_none _ _ Hsize).
  rewrite (all_settled_map_return convertToBase64 encoded _ Hconv).
  reflexivity.
Qed.

Lemma onDrop_without_session_witness :
  onDrop defaults [] (server None Sample.cloudinary Sample.clock)
    (fun f => Return (Upload.name f)) [Sample.small_jpeg]
  = {| images := [];
       shown := Some (ToastError "Failed to upload images. Please try again.");
       requests :=
         [ PostFiles [Sample.small_jpeg];
           PutImages (JObj [("images", JArr [JStr "small.jpg"])]) ];
       notified := false |}.
Proof.
  apply (onDrop_without_session defaults [] Sample.cloudinary Sample.clock
           (fun f => Return (Upload.name f)) Upload.name [Sample.small_jpeg]).
  - reflexivity.
  - simpl. lia.
  - intros f [<- | []]. vm_compute. discriminate.
  - intros f _. reflexivity.
Defined.

(** X20.  The picker sends nothing to the server when it is disabled, when
    the drop would take it over [maxImages], or when a dropped file is
    larger than [maxSizePerImage] megabytes; the images stay as they
    were. *)
Theorem onDrop_refuses_locally
    (props : Props) (held : list json) (fetch : request -> response)
    (convertToBase64 : Upload.File -> outcome string)
    (acceptedFiles : list Upload.File) :
  disabled props = true
  \/ maxImages props < List.length held + List.length acceptedFiles
  \/ (exists f, In f acceptedFiles
                /\ (maxSizePerImage props * 1024 * 1024 < Upload.size f)%N) ->
  let r := onDrop props held fetch convertToBase64 acceptedFiles in
  requests r = [] /\ images r = held /\ notified r = false.
Proof.
  intros H r. unfold r, onDrop.
  destruct (disabled props); [repeat split|].
  destruct (Nat.ltb_spec (maxImages props)
              (List.length held + List.length acceptedFiles)) as [Hgt|Hle];
    [repeat split|].
  destruct (find _ acceptedFiles) eqn:Hf; [repeat split|].
  exfalso. destruct H as [H | [H | (f & Hin & Hbig)]]; [discriminate | lia |].
  apply (find_none _ _ Hf) in Hin. apply N.ltb_ge in Hin. lia.
Qed.

Lemma onDrop_refuses_locally_witness :
  let r := onDrop defaults [] (server (Some Sample.session) Sample.cloudinary Sample.clock)
             (fun f => Return (Upload.name f)) [Sample.big_png] in
  requests r = [] /\ images r = [] /\ notified r = false.
Proof.
  apply (onDrop_refuses_locally defaults []
           (server (Some Sample.session) Sample.cloudinary Sample.clock)
           (fun f => Return (Upload.name f)) [Sample.big_png]).
  right. right. exists Sample.big_png. split; [now left | reflexivity].
Defined.

Lemma filter_index_before (held : list json) (i index : nat) :
  index < i -> filter_index i index held = held.
Proof.
  revert i. induction held as [|x rest IH]; intros i Hlt; cbn [filter_index].
  - reflexivity.
  - destruct (Nat.eqb_spec i index); [lia|]. rewrite IH by lia. reflexivity.
Qed.

Lemma filter_index_at (held : list json) (i k : nat) :
  filter_index i (i + k) held
  = if k <? List.length held then firstn k held ++ skipn (S k) held else held.
Proof.
  revert i k. induction held as [|x rest IH]; intros i k; cbn [filter_index].
  - reflexivity.
  - destruct k as [|k].
    + rewrite Nat.add_0_r, Nat.eqb_refl.
      rewrite filter_index_before by lia. reflexivity.
    + destruct (Nat.eqb_spec i (i + S k)); [lia|].
      replace (i + S k) with (S i + k) by lia. rewrite IH.
      cbn [List.length]. change (S k <? S (List.length rest)) with (k <? List.length rest).
      destruct (k <? List.length rest); reflexivity.
Qed.

(** X21.  [removeImage(index)] drops exactly the image at [index] and keeps
    the others in order; an [index] outside the list removes nothing. *)
Theorem removeImage_spec (held : list json) (index : nat) :
  (index < List.length held ->
   removeImage held index = firstn index held ++ skipn (S index) held
   /\ S (List.length (removeImage held index)) = List.length held)
  /\ (List.length held <= index -> removeImage held index = held).
Proof.
  unfold removeImage.
  change (filter_index 0 index held) with (filter_index 0 (0 + index) held).
  rewrite (filter_index_at held 0 index).
  split.
  - intros Hlt. apply Nat.ltb_lt in Hlt. rewrite Hlt. split; [reflexivity|].
    apply Nat.ltb_lt in Hlt.
    rewrite length_app, length_firstn, length_skipn. lia.
  - intros Hge. destruct (Nat.ltb_spec index (List.length held)); [lia|reflexivity].
Qed.

Lemma removeImage_spec_witness :
  removeImage [JStr "a"; JStr "b"; JStr "c"] 1 = [JStr "a"] ++ [JStr "c"]
  /\ removeImage [JStr "a"; JStr "b"; JStr "c"] 3 = [JStr "a"; JStr "b"; JStr "c"].
Proof.
  split.
  - apply (proj1 (removeImage_spec [JStr "a"; JStr "b"; JStr "c"] 1)). simpl. lia.
  - apply (proj2 (removeImage_spec [JStr "a"; JStr "b"; JStr "c"] 3)). simpl. lia.
Defined.

End ImageUploadMoreFacts.

(** ** The live feed hooks *)

Section LiveFeedFacts.

Import LiveFeed.
Open Scope Z_scope.



Close Scope Z_scope.

Lemma slice0_nonneg {A : Type} (l : list A) (k : nat) :
  slice0 l (Z.of_nat k) = firstn k l.
Proof.
  unfold slice0. destruct (Z.ltb_spec (Z.of_nat k) 0) as [H|H]; [lia|].
  destruct (Nat.le_gt_cases k (List.length l)) as [Hle|Hgt].
  - rewrite Z.min_l by lia. now rewrite Nat2Z.id.
  - rewrite Z.min_r by lia. rewrite Nat2Z.id.
    rewrite firstn_all. symmetry. apply firstn_all2. lia.
Qed.

Lemma feed_fold (k : nat) (us : list LiveUpdate) (l : list LiveUpdate) :
  fold_left (fun prev u => tick (Z.of_nat (S k)) u prev) us (firstn (S k) l)
  = firstn (S k) (rev us ++ l).
Proof.
  revert l. induction us as [|u rest IH]; intros l; [reflexivity|].
  cbn [fold_left]. unfold tick at 2.
  replace (Z.of_nat (S k) - 1)%Z with (Z.of_nat k) by lia.
  rewrite slice0_nonneg, firstn_firstn, Nat.min_l by lia.
  change (u :: firstn k l) with (firstn (S k) (u :: l)).
  rewrite IH. cbn [rev]. now rewrite <- app_assoc.
Qed.

(** X23.  For [itemsToShow] at least one, the feed always shows the
    [itemsToShow] most recent updates, newest first: after any number of
    ticks it is the first [itemsToShow] entries of the updates of the
    ticks, latest first, followed by the mock updates.  In particular it
    never holds more than [itemsToShow] entries. *)
Theorem feed_shows_most_recent
    (itemsToShow : Z) (now : Z) (us : list LiveUpdate) :
  (1 <= itemsToShow)%Z ->
  useLiveFeed itemsToShow now us
  = firstn (Z.to_nat itemsToShow) (rev us ++ mockUpdates now)
  /\ (Z.of_nat (List.length (useLiveFeed itemsToShow now us)) <= itemsToShow)%Z.
Proof.
  intros Hk.
  assert (Hfeed : useLiveFeed itemsToShow now us
                  = firstn (Z.to_nat itemsToShow) (rev us ++ mockUpdates now)).
  { unfold useLiveFeed, initial.
    destruct (Z.to_nat itemsToShow) as [|k] eqn:Hn; [lia|].
    replace itemsToShow with (Z.of_nat (S k)) by lia.
    rewrite slice0_nonneg. apply feed_fold. }
  split; [exact Hfeed|].
  rewrite Hfeed, length_firstn. lia.
Qed.

Lemma feed_shows_most_recent_witness :
  let u1 := newUpdate 1700000005000 Q0 Q0 T2 in
  let u2 := newUpdate 1700000010000 Q1 Q1 T0 in
  useLiveFeed 3 1700000000000 [u1; u2]
  = firstn 3 (rev [u1; u2] ++ mockUpdates 1700000000000)
  /\ (Z.of_nat (List.length (useLiveFeed 3 1700000000000 [u1; u2])) <= 3)%Z.
Proof.
  intros u1 u2.
  apply (feed_shows_most_recent 3 1700000000000 [u1; u2]). lia.
Defined.

Lemma realtime_snoc (initialValue : Z) (maxValue : option Z)
    (rs : list draw5) (r : draw5) :
  useRealtimeData initialValue maxValue (rs ++ [r])
  = fst (realtime_tick maxValue (useRealtimeData initialValue maxValue rs) r).
Proof. unfold useRealtimeData. now rewrite fold_left_app. Qed.

Lemma realtime_stays_exact (initialValue m : Z) (rs : list draw5) :
  in_exact_range initialValue -> (0 < m)%Z -> in_exact_range m ->
  in_exact_range (useRealtimeData initialValue (Some m) rs)
  /\ (rs <> [] -> (0 <= useRealtimeData initialValue (Some m) rs <= m)%Z).
Proof.
  intros Hi Hm Hmx. induction rs as [|r rs IH] using rev_ind.
  - split; [exact Hi|]. intros H. now elim H.
  - rewrite realtime_snoc. unfold realtime_tick. cbn [fst].
    destruct (Z.eqb_spec m 0); [lia|].
    unfold in_exact_range in *. split; [|intros _]; lia.
Qed.

(** X24.  The simulated metric stays in range.  For an integer initial
    value and a positive integer [maxValue], both in the range where the
    sums of the source are exact: every value of the run stays in that
    range; after at least one tick the value is between 0 and [maxValue],
    whatever it started from; one tick moves a value inside the range by
    at most two.  A [maxValue] of 0 is taken as no maximum at all: the
    tick is then the one of an absent [maxValue], which only keeps the
    value from falling below 0. *)
Theorem realtime_value_in_range
    (initialValue m : Z) (rs : list draw5) (r : draw5) :
  in_exact_range initialValue -> (0 < m)%Z -> in_exact_range m ->
  let v := useRealtimeData initialValue (Some m) (rs ++ [r]) in
  let prev := useRealtimeData initialValue (Some m) rs in
  in_exact_range prev /\ in_exact_range v
  /\ (0 <= v <= m)%Z
  /\ (rs <> [] -> (0 <= prev <= m)%Z)
  /\ ((0 <= prev <= m)%Z -> (prev - 2 <= v <= prev + 2)%Z)
  /\ realtime_tick (Some 0%Z) prev r = realtime_tick None prev r
  /\ fst (realtime_tick None prev r) = Z.max 0 (prev + (floor5 r - 2))%Z.
Proof.
  intros Hi Hm Hmx v prev.
  destruct (realtime_stays_exact initialValue m rs Hi Hm Hmx) as [Hp Hin].
  destruct (realtime_stays_exact initialValue m (rs ++ [r]) Hi Hm Hmx) as [Hv Hvin].
  fold prev in Hp, Hin. fold v in Hv, Hvin.
  split; [exact Hp|]. split; [exact Hv|].
  split; [apply Hvin; now destruct rs|].
  split; [exact Hin|].
  split; [|split].
  - intros Hprev. unfold v. rewrite realtime_snoc. fold prev.
    unfold realtime_tick. cbn [fst].
    destruct (Z.eqb_spec m 0); [lia|]. destruct r; cbn [floor5]; lia.
  - reflexivity.
  - unfold realtime_tick. cbn [fst]. destruct r; cbn [floor5]; lia.
Qed.

Lemma realtime_value_in_range_witness :
  (0 <= useRealtimeData 250 (Some 100%Z) ([F4; F0] ++ [F4]) <= 100)%Z.
Proof.
  apply (proj1 (proj2 (proj2 (realtime_value_in_range 250 100 [F4; F0] F4
                                ltac:(unfold in_exact_range, MAX_SAFE_INTEGER; simpl; lia)
                                ltac:(lia)
                                ltac:(unfold in_exact_range, MAX_SAFE_INTEGER; simpl; lia))))).
Defined.

End LiveFeedFacts.

(** ** The operator scripts *)

Section ScriptFacts.

Import UserModel.

(** X25.  The connection loop of the setup test calls [dbConnect] at most
    three times and stops at the first call that resolves: it ends
    connected exactly when one of the first three calls resolves, the
    attempt count is then the number of that call, and it has waited two
    seconds after each failed call except the third. *)
Theorem connectWithRetry_stops_at_first_success (dbConnect : nat -> bool) :
  let r := SetupTest.connectWithRetry dbConnect in
  1 <= SetupTest.attempts r <= 3
  /\ (SetupTest.connected r = true <->
      dbConnect 1 = true \/ dbConnect 2 = true \/ dbConnect 3 = true)
  /\ SetupTest.connected r = dbConnect (SetupTest.attempts r)
  /\ (forall k, 1 <= k < SetupTest.attempts r -> dbConnect k = false)
  /\ SetupTest.waits r
     = (if SetupTest.connected r then SetupTest.attempts r - 1 else 2).
Proof.
  unfold SetupTest.connectWithRetry, SetupTest.maxAttempts. simpl.
  destruct (dbConnect 1) eqn:H1; simpl;
    [|destruct (dbConnect 2) eqn:H2; simpl;
      [|destruct (dbConnect 3) eqn:H3; simpl]];
    repeat split; try lia; try congruence; auto;
    try (intros [H | [H | H]]; congruence);
    try (intros k Hk; destruct k as [|[|[|k]]]; try lia; congruence).
Qed.

Lemma find_app_some {A : Type} (p : A -> bool) (l l' : list A) (x : A) :
  find p l = Some x -> find p (l ++ l') = Some x.
Proof.
  induction l as [|y rest IH]; simpl; [discriminate|].
  destruct (p y); [auto|exact IH].
Qed.

Lemma sample_passes_validators (u : Seed.SampleUser) (fresh_id : nat) (now : N) :
  sample_valid u = true ->
  validation_errors (new_User fresh_id now (Seed.init_of u)) = [].
Proof.
  unfold sample_valid. intros H.
  apply andb_true_iff in H as [H Hrole].
  apply andb_true_iff in H as [H Hmobile].
  apply andb_true_iff in H as [H Hpass].
  apply andb_true_iff in H as [Hname Hemail].
  unfold validation_errors, check_enum, new_User, Seed.init_of.
  cbn [new_name new_email new_password new_mobile new_role
       init_name init_email init_password init_mobile init_role
       option_map secret_present JS.truthy_opt].
  unfold cast_email. rewrite truthy_toLowerCase.
  now rewrite Hname, Hemail, Hpass, Hmobile, Hrole.
Qed.

(** The loop on a well-formed collection and valid literals: it ends, the
    collection stays well-formed and only grows, and every literal's
    e-mail is found afterwards. *)
Lemma seedLoop_spec (env : Seed.Env) (users : list Seed.SampleUser) :
  forall (k : nat) (db : DB),
    wf_db db ->
    Forall (fun u => sample_valid u = true) users ->
    exists created db' added,
      Seed.seedLoop env k db users = Return (created, db')
      /\ wf_db db' /\ db' = db ++ added
      /\ List.length created = List.length users
      /\ List.length added <= List.length users
      /\ forall u, In u users ->
           exists d, findOne_select_password db' (Seed.email u) = Some d.
Proof.
  induction users as [|u rest IH]; intros k db Hwf Hvalid.
  - exists [], db, []. rewrite app_nil_r.
    split; [reflexivity|]. split; [exact Hwf|]. split; [reflexivity|].
    split; [reflexivity|]. split; [simpl; lia|]. intros u [].
  - inversion Hvalid as [|? ? Hu Hrest]; subst.
    cbn [Seed.seedLoop]. unfold findOne.
    destruct (findOne_select_password db (Seed.email u)) as [d|] eqn:Hfind;
      cbn [option_map].
    + destruct (IH (S k) db Hwf Hrest)
        as (created & db' & added & -> & Hwf' & Hdb & Hlen & Hadd & Hfound).
      exists (project d :: created), db', added.
      split; [reflexivity|]. split; [exact Hwf'|]. split; [exact Hdb|].
      split; [simpl; lia|]. split; [simpl; lia|].
      intros v [<- | Hv]; [|now apply Hfound].
      exists d. rewrite Hdb. unfold findOne_select_password in *.
      now apply find_app_some.
    + destruct (save db (Seed.salt env k) _) as [[doc db1]|m] eqn:Hsave.
      * destruct (create_preserves_wf db db1 _ _ _ _ doc Hwf Hsave) as [Hdb1 Hwf1].
        destruct (IH (S k) db1 Hwf1 Hrest)
          as (created & db' & added & -> & Hwf' & Hdb & Hlen & Hadd & Hfound).
        exists (doc :: created), db', (doc :: added).
        split; [reflexivity|]. split; [exact Hwf'|].
        split; [rewrite Hdb, Hdb1, <- app_assoc; reflexivity|].
        split; [simpl; lia|]. split; [simpl; lia|].
        intros v [<- | Hv]; [|now apply Hfound].
        exists doc. rewrite Hdb. unfold findOne_select_password.
        apply find_app_some.
        assert (Hin : In doc db1) by (rewrite Hdb1; apply in_or_app; right; now left).
        assert (Hmail : email doc = cast_email (Seed.email u)).
        { unfold save in Hsave.
          rewrite (sample_passes_validators u _ _ Hu) in Hsave.
          simpl in Hsave. destruct (existsb _ db); [discriminate|].
          injection Hsave as <- _. reflexivity. }
        rewrite <- Hmail. apply find_email_unique; [apply Hwf1|exact Hin].
      * exfalso. unfold save in Hsave.
        rewrite (sample_passes_validators u _ _ Hu) in Hsave.
        simpl in Hsave.
        assert (Hex : existsb (email_is (cast_email (Seed.email u))) db = false).
        { destruct (existsb _ db) eqn:He; [|reflexivity].
          apply existsb_exists in He as (x & Hin & Hx).
          unfold findOne_select_password in Hfind.
          apply (find_none _ _ Hfind) in Hin. congruence. }
        rewrite Hex in Hsave. discriminate.
Qed.

(** When every literal's e-mail is found, the loop creates nothing. *)
Lemma seedLoop_nothing_to_do (env : Seed.Env) (users : list Seed.SampleUser) :
  forall (k : nat) (db : DB),
    (forall u, In u users ->
       exists d, findOne_select_password db (Seed.email u) = Some d) ->
    exists created, Seed.seedLoop env k db users = Return (created, db).
Proof.
  induction users as [|u rest IH]; intros k db Hfound.
  - now exists [].
  - cbn [Seed.seedLoop]. unfold findOne.
    destruct (Hfound u (or_introl eq_refl)) as [d ->]. cbn [option_map].
    destruct (IH (S k) db) as [created ->]; [intros v Hv; apply Hfound; now right|].
    now eexists.
Qed.

(** X26.  Seeding the sample users is safe to repeat.  On any well-formed
    collection the loop ends without error, keeps the documents that were
    there, adds at most three, leaves the collection well-formed and each
    of the three sample e-mails findable; run again, it creates
    nothing. *)
Theorem seedUsers_idempotent (env : Seed.Env) (db : DB) :
  wf_db db ->
  exists created db' added,
    Seed.seedUsers env db = Return (created, db')
    /\ wf_db db' /\ db' = db ++ added
    /\ List.length created = 3 /\ List.length added <= 3
    /\ (forall u, In u Seed.sampleUsers ->
          exists d, findOne_select_password db' (Seed.email u) = Some d)
    /\ forall env', exists created',
         Seed.seedUsers env' db' = Return (created', db').
Proof.
  intros Hwf.
  destruct (seedLoop_spec env Seed.sampleUsers 0 db Hwf)
    as (created & db' & added & Hrun & Hwf' & Hdb & Hlen & Hadd & Hfound).
  { repeat constructor. }
  exists created, db', added.
  split; [exact Hrun|]. split; [exact Hwf'|]. split; [exact Hdb|].
  split; [exact Hlen|]. split; [exact Hadd|]. split; [exact Hfound|].
  intros env'. now apply seedLoop_nothing_to_do.
Qed.

Lemma seedUsers_idempotent_witness :
  let env := {| Seed.fresh_id := fun k => 2 + k; Seed.now := fun _ => 1700000000000%N;
                Seed.salt := fun k => N.of_nat k |} in
  exists created db' added,
    Seed.seedUsers env [Sample.stored_alice] = Return (created, db')
    /\ wf_db db' /\ db' = [Sample.stored_alice] ++ added
    /\ List.length created = 3 /\ List.length added <= 3
    /\ (forall u, In u Seed.sampleUsers ->
          exists d, findOne_select_password db' (Seed.email u) = Some d)
    /\ forall env', exists created',
         Seed.seedUsers env' db' = Return (created', db').
Proof.
  intros env.
  exact (seedUsers_idempotent env [Sample.stored_alice] wf_db_sample).
Defined.

(** X27.  The seeded accounts can sign in.  After seeding an empty
    collection, [authorize] accepts each sample e-mail, written in any
    ASCII case, with the password [password123], and returns the role of
    that literal. *)
Theorem seeded_users_can_sign_in
    (env : Seed.Env) (u : Seed.SampleUser) (e : string) :
  In u Seed.sampleUsers ->
  JS.eq_ascii_case e (Seed.email u) ->
  exists created db' a,
    Seed.seedUsers env [] = Return (created, db')
    /\ Auth.authorize db' (Some {| Auth.email := e; Auth.password := "password123" |})
       = Return a
    /\ Auth.user_email a = Seed.email u
    /\ Auth.user_role a = Seed.role u.
Proof.
  intros Hu Hcase.
  destruct (seedLoop_spec env Seed.sampleUsers 0 [] wf_db_empty)
    as (created & db' & added & Hrun & Hwf' & _ & _ & _ & Hfound).
  { repeat constructor. }
  destruct (Hfound u Hu) as [d Hd].
  assert (Hrun' := Hrun). vm_compute in Hrun'. injection Hrun' as _ Hdb'.
  unfold findOne_select_password in Hd.
  apply find_some in Hd as [Hin Hmail]. apply String.eqb_eq in Hmail.
  assert (Hd : JS.eq_ascii_case e (email d)
               /\ email d = Seed.email u /\ role d = Seed.role u
               /\ exists salt,
                    password d = Some (Bcrypt.Hashed 10 salt (Bcrypt.Plain "password123"))).
  { rewrite <- Hdb' in Hin. simpl in Hin.
    destruct Hu as [<- | [<- | [<- | []]]];
      destruct Hin as [<- | [<- | [<- | []]]];
      try discriminate Hmail;
      (split; [exact Hcase|]; split; [reflexivity|]; split; [reflexivity|];
       eexists; reflexivity). }
  destruct Hd as (Hcase' & Hemail & Hrole & salt & Hpw).
  assert (He : e <> "").
  { intros ->. unfold JS.eq_ascii_case in Hcase.
    destruct Hu as [<- | [<- | [<- | []]]]; discriminate. }
  destruct (authorize_stored_user db' d e "password123" 10 salt
              Hwf' Hin Hcase' Hpw He ltac:(discriminate))
    as (a & Ha & Ha1 & Ha2).
  exists created, db', a.
  split; [exact Hrun|]. split; [exact Ha|]. split; congruence.
Qed.

Lemma seeded_users_can_sign_in_witness :
  let env := {| Seed.fresh_id := fun k => 1 + k; Seed.now := fun _ => 1700000000000%N;
                Seed.salt := fun k => N.of_nat k |} in
  exists created db' a,
    Seed.seedUsers env [] = Return (created, db')
    /\ Auth.authorize db'
         (Some {| Auth.email := "Admin@CityGuardian.com"; Auth.password := "password123" |})
       = Return a
    /\ Auth.user_email a = "admin@cityguardian.com"
    /\ Auth.user_role a = "admin".
Proof.
  intros env.
  apply (seeded_users_can_sign_in env
           {| Seed.name := "Admin User"; Seed.email := "admin@cityguardian.com";
              Seed.password := "password123"; Seed.mobile := "9876543212";
              Seed.role := "admin" |} "Admin@CityGuardian.com").
  - simpl. right. right. now left.
  - reflexivity.
Defined.

End ScriptFacts.
